(** * CList: the storage aggregation front-end

    A shallow embedding of the home route (its [loader], [formatBytes], the
    handlers of [FileBrowser] and the other request sites of the page), of
    the [FilePreview] modal and of the file-type utilities
    ([~/lib/file-utils]), followed by the properties proved about them.

    Strings are [string].  The sources inspect the characters of a string
    only to find ['.'] and ['/'] and otherwise compare strings as wholes, so
    a name is represented by its UTF-8 bytes, among which those two
    characters occur exactly where they occur in the name.  The two Unicode
    built-ins the code calls, [String.prototype.toLowerCase] and
    [String.prototype.trim], are variables of the sections that need them:
    nothing proved here depends on how they treat characters outside
    ASCII.  [ascii_toLowerCase] and [ascii_trim] are their restrictions to
    ASCII and serve as concrete instances. *)

From Stdlib Require Import ZArith List String Ascii Bool Lia DecimalString.
From Stdlib Require QArith Qround Qminmax.
Import ListNotations.

Open Scope list_scope.
Open Scope string_scope.

(* ================================================================= *)
(** ** JavaScript built-ins used by the sources *)

Module JS.

(** [s.split(sep)] for a one-character separator (the sources split on
    ['.'] and on ['/']).  The result is never empty: a string without the
    separator is returned whole, as a single part. *)
Fixpoint split (sep : ascii) (s : string) : list string :=
  match s with
  | EmptyString => [EmptyString]
  | String c rest =>
      if Ascii.eqb c sep then EmptyString :: split sep rest
      else match split sep rest with
           | [] => [String c EmptyString]
           | part :: parts => String c part :: parts
           end
  end.

(** [parts.join(sep)]. *)
Fixpoint join (sep : string) (parts : list string) : string :=
  match parts with
  | [] => EmptyString
  | [p] => p
  | p :: rest => p ++ sep ++ join sep rest
  end.

(** [Boolean(s)] for a string: every string but the empty one is truthy. *)
Definition truthy (s : string) : bool :=
  match s with
  | EmptyString => false
  | String _ _ => true
  end.

(** [arr.includes(x)] on an array of strings. *)
Definition includes (arr : list string) (x : string) : bool :=
  existsb (String.eqb x) arr.

(** [arr.pop()]: the array after the call; popping an empty array leaves it
    empty. *)
Definition pop {A : Type} (arr : list A) : list A := removelast arr.

(** [a || b] on strings. *)
Definition or_else (a b : string) : string := if truthy a then a else b.

(** [a || b] where [a] may be [undefined]. *)
Definition or_default (a : option string) (b : string) : string :=
  match a with
  | Some s => or_else s b
  | None => b
  end.

(** [String(n)] for an integer-valued number in the range where JavaScript
    prints plain decimal digits. *)
Definition number_to_string (n : Z) : string :=
  NilEmpty.string_of_int (Z.to_int n).

(** [url.startsWith(p)]. *)
Definition startsWith (p s : string) : bool := String.prefix p s.

(** [toLowerCase] restricted to ASCII: the letters ['A'..'Z'] are shifted,
    every other code unit is kept. *)
Definition lower_ascii (c : ascii) : ascii :=
  let n := nat_of_ascii c in
  if andb (65 <=? n)%nat (n <=? 90)%nat then ascii_of_nat (n + 32) else c.

Fixpoint ascii_toLowerCase (s : string) : string :=
  match s with
  | EmptyString => EmptyString
  | String c rest => String (lower_ascii c) (ascii_toLowerCase rest)
  end.

(** [trim] restricted to ASCII white space (TAB, LF, VT, FF, CR, SPACE). *)
Definition is_space (c : ascii) : bool :=
  let n := nat_of_ascii c in
  orb (andb (9 <=? n)%nat (n <=? 13)%nat) (n =? 32)%nat.

Fixpoint trim_start (s : string) : string :=
  match s with
  | EmptyString => EmptyString
  | String c rest => if is_space c then trim_start rest else s
  end.

Fixpoint trim_end (s : string) : string :=
  match s with
  | EmptyString => EmptyString
  | String c rest =>
      match trim_end rest with
      | EmptyString => if is_space c then EmptyString else String c EmptyString
      | kept => String c kept
      end
  end.

Definition ascii_trim (s : string) : string := trim_end (trim_start s).

(** Whether every code unit of a string is an ASCII one. *)
Fixpoint is_ascii (s : string) : bool :=
  match s with
  | EmptyString => true
  | String c rest => andb (nat_of_ascii c <? 128)%nat (is_ascii rest)
  end.

(** Whether a string contains a given code unit. *)
Fixpoint contains (c : ascii) (s : string) : bool :=
  match s with
  | EmptyString => false
  | String d rest => orb (Ascii.eqb d c) (contains c rest)
  end.

End JS.

(* ================================================================= *)
(** ** File type detection utilities ([~/lib/file-utils]) *)

Module FileUtils.

Inductive FileType : Type :=
  | video | audio | image | text | code | pdf | unknown.

Definition FileType_eqb (a b : FileType) : bool :=
  match a, b with
  | video, video | audio, audio | image, image | text, text
  | code, code | pdf, pdf | unknown, unknown => true
  | _, _ => false
  end.

(** The string each member of the union type stands for. *)
Definition label (t : FileType) : string :=
  match t with
  | video => "video" | audio => "audio" | image => "image" | text => "text"
  | code => "code" | pdf => "pdf" | unknown => "unknown"
  end.

Definition VIDEO_EXTENSIONS : list string :=
  ["mp4"; "webm"; "ogg"; "mov"; "avi"; "mkv"; "m4v"; "flv"; "wmv"; "3gp"].
Definition AUDIO_EXTENSIONS : list string :=
  ["mp3"; "wav"; "ogg"; "flac"; "aac"; "m4a"; "wma"; "opus"; "webm"].
Definition IMAGE_EXTENSIONS : list string :=
  ["jpg"; "jpeg"; "png"; "gif"; "webp"; "svg"; "bmp"; "ico"; "avif"].
Definition TEXT_EXTENSIONS : list string :=
  ["txt"; "log"; "md"; "markdown"; "rst"; "csv"; "ini"; "cfg"; "conf"].
Definition CODE_EXTENSIONS : list string :=
  ["js"; "ts"; "jsx"; "tsx"; "json"; "html"; "css"; "scss"; "less";
   "py"; "java"; "c"; "cpp"; "h"; "hpp"; "cs"; "go"; "rs"; "rb";
   "php"; "sql"; "sh"; "bash"; "zsh"; "ps1"; "bat"; "cmd";
   "xml"; "yaml"; "yml"; "toml"; "vue"; "svelte"; "astro";
   "swift"; "kt"; "scala"; "r"; "lua"; "pl"; "ex"; "exs";
   "dockerfile"; "makefile"; "cmake"; "gradle"; "env"].
Definition PDF_EXTENSIONS : list string := ["pdf"].

(** Values a property read on an object literal can produce: a string of
    the literal, [undefined], or something inherited from
    [Object.prototype]. *)
Inductive JsValue : Type :=
  | JsString (s : string)
  | JsUndefined
  | JsBuiltinFunction (name : string)
  | JsObjectPrototype.

Definition js_truthy (v : JsValue) : bool :=
  match v with
  | JsString s => JS.truthy s
  | JsUndefined => false
  | JsBuiltinFunction _ => true
  | JsObjectPrototype => true
  end.

(** [a || b]. *)
Definition js_or (a b : JsValue) : JsValue := if js_truthy a then a else b.

(** The properties every object literal inherits. *)
Definition OBJECT_PROTOTYPE_FUNCTIONS : list string :=
  ["constructor"; "hasOwnProperty"; "isPrototypeOf"; "propertyIsEnumerable";
   "toLocaleString"; "toString"; "valueOf";
   "__defineGetter__"; "__defineSetter__";
   "__lookupGetter__"; "__lookupSetter__"].

Fixpoint own_property (props : list (string * string)) (key : string)
  : option string :=
  match props with
  | [] => None
  | (k, v) :: rest => if String.eqb k key then Some v else own_property rest key
  end.

(** [obj[key]] for an object literal [obj] with the given own properties:
    own properties first, then the prototype. *)
Definition get_property (props : list (string * string)) (key : string)
  : JsValue :=
  match own_property props key with
  | Some v => JsString v
  | None =>
      if String.eqb key "__proto__" then JsObjectPrototype
      else if JS.includes OBJECT_PROTOTYPE_FUNCTIONS key
           then JsBuiltinFunction key
           else JsUndefined
  end.

Definition mimeTypes : list (string * string) :=
  [ (* Video *)
    ("mp4", "video/mp4"); ("webm", "video/webm"); ("ogg", "video/ogg");
    ("mov", "video/quicktime"); ("avi", "video/x-msvideo");
    ("mkv", "video/x-matroska"); ("m4v", "video/x-m4v");
    (* Audio *)
    ("mp3", "audio/mpeg"); ("wav", "audio/wav"); ("flac", "audio/flac");
    ("aac", "audio/aac"); ("m4a", "audio/mp4"); ("opus", "audio/opus");
    (* Image *)
    ("jpg", "image/jpeg"); ("jpeg", "image/jpeg"); ("png", "image/png");
    ("gif", "image/gif"); ("webp", "image/webp"); ("svg", "image/svg+xml");
    ("bmp", "image/bmp"); ("ico", "image/x-icon"); ("avif", "image/avif");
    (* Text *)
    ("txt", "text/plain"); ("md", "text/markdown"); ("csv", "text/csv");
    (* Code *)
    ("js", "text/javascript"); ("ts", "text/typescript");
    ("json", "application/json"); ("html", "text/html"); ("css", "text/css");
    ("xml", "text/xml");
    (* PDF *)
    ("pdf", "application/pdf") ].

Definition languages : list (string * string) :=
  [ ("js", "javascript"); ("jsx", "javascript"); ("ts", "typescript");
    ("tsx", "typescript"); ("py", "python"); ("rb", "ruby"); ("java", "java");
    ("c", "c"); ("cpp", "cpp"); ("h", "c"); ("hpp", "cpp"); ("cs", "csharp");
    ("go", "go"); ("rs", "rust"); ("php", "php"); ("sql", "sql");
    ("sh", "bash"); ("bash", "bash"); ("zsh", "bash"); ("ps1", "powershell");
    ("bat", "batch"); ("cmd", "batch"); ("html", "html"); ("css", "css");
    ("scss", "scss"); ("less", "less"); ("json", "json"); ("xml", "xml");
    ("yaml", "yaml"); ("yml", "yaml"); ("toml", "toml"); ("md", "markdown");
    ("markdown", "markdown"); ("vue", "vue"); ("svelte", "svelte");
    ("swift", "swift"); ("kt", "kotlin"); ("scala", "scala"); ("r", "r");
    ("lua", "lua"); ("pl", "perl"); ("ex", "elixir"); ("exs", "elixir") ].

Section WithToLowerCase.

Variable toLowerCase : string -> string.

Definition getFileExtension (filename : string) : string :=
  let parts := JS.split "." (toLowerCase filename) in
  if (1 <? List.length parts)%nat
  then nth (List.length parts - 1) parts EmptyString
  else EmptyString.

Definition getFileType (filename : string) : FileType :=
  let ext := getFileExtension filename in
  if JS.includes VIDEO_EXTENSIONS ext then video
  else if JS.includes AUDIO_EXTENSIONS ext then audio
  else if JS.includes IMAGE_EXTENSIONS ext then image
  else if JS.includes PDF_EXTENSIONS ext then pdf
  else if JS.includes CODE_EXTENSIONS ext then code
  else if JS.includes TEXT_EXTENSIONS ext then text
  else unknown.

Definition isPreviewable (filename : string) : bool :=
  let type := getFileType filename in
  existsb (FileType_eqb type) [video; audio; image; text; code; pdf].

Definition getMimeType (filename : string) : JsValue :=
  let ext := getFileExtension filename in
  js_or (get_property mimeTypes ext) (JsString "application/octet-stream").

Definition getCodeLanguage (filename : string) : JsValue :=
  let ext := getFileExtension filename in
  js_or (get_property languages ext) (JsString "plaintext").

End WithToLowerCase.

(** The classification as the description of the module words it: the
    extension lists are consulted in a fixed order and the first one that
    contains the extension gives the label. *)
Definition LISTS_IN_ORDER : list (list string * FileType) :=
  [ (VIDEO_EXTENSIONS, video); (AUDIO_EXTENSIONS, audio);
    (IMAGE_EXTENSIONS, image); (PDF_EXTENSIONS, pdf);
    (CODE_EXTENSIONS, code); (TEXT_EXTENSIONS, text) ].

Fixpoint first_listing (lists : list (list string * FileType)) (ext : string)
  : FileType :=
  match lists with
  | [] => unknown
  | (extensions, type) :: rest =>
      if JS.includes extensions ext then type else first_listing rest ext
  end.

(** The seven labels of the [FileType] union. *)
Definition LABELS : list string :=
  ["video"; "audio"; "image"; "text"; "code"; "pdf"; "unknown"].

(** The part of a string after its last ['.'], when it has one. *)
Fixpoint after_last_dot (s : string) : option string :=
  match s with
  | EmptyString => None
  | String c rest =>
      match after_last_dot rest with
      | Some tail => Some tail
      | None => if Ascii.eqb c "." then Some rest else None
      end
  end.

End FileUtils.

(* ================================================================= *)
(** ** The preview modal ([FilePreview]) *)

Module Preview.

Import FileUtils.

(** What the content area of the modal can hold. *)
Inductive Widget : Type :=
  | VideoPlayer (url : string)
  | AudioPlayer (url fileName : string)
  | ImageViewer (url fileName : string)
  | TextViewer (url fileName : string)
  | PDFViewer (url : string)
  | CannotPreview (href download : string).

Definition is_CannotPreview (w : Widget) : bool :=
  match w with
  | CannotPreview _ _ => true
  | _ => false
  end.

(** [{cond && <X />}]. *)
Definition when {A : Type} (cond : bool) (x : A) : list A :=
  if cond then [x] else [].

Definition fileUrl (storageId : Z) (fileKey : string) : string :=
  "/api/files/" ++ JS.number_to_string storageId ++ "/" ++ fileKey
  ++ "?action=download".

Section WithToLowerCase.

Variable toLowerCase : string -> string.

(** The children of the "Preview content" element, in source order. *)
Definition preview_content (storageId : Z) (fileKey fileName : string)
  : list Widget :=
  let fileType := getFileType toLowerCase fileName in
  let fileUrl := fileUrl storageId fileKey in
  (when (FileType_eqb fileType video) (VideoPlayer fileUrl)
   ++ when (FileType_eqb fileType audio) (AudioPlayer fileUrl fileName)
   ++ when (FileType_eqb fileType image) (ImageViewer fileUrl fileName)
   ++ when (orb (FileType_eqb fileType text) (FileType_eqb fileType code))
        (TextViewer fileUrl fileName)
   ++ when (FileType_eqb fileType pdf) (PDFViewer fileUrl)
   ++ when (FileType_eqb fileType unknown) (CannotPreview fileUrl fileName))%list.

(** The URLs the modal refers to: the download link of the header, and the
    [src], [fetch] or [href] of each widget shown. *)
Definition widget_url (w : Widget) : string :=
  match w with
  | VideoPlayer url => url
  | AudioPlayer url _ => url
  | ImageViewer url _ => url
  | TextViewer url _ => url
  | PDFViewer url => url
  | CannotPreview href _ => href
  end.

Definition preview_urls (storageId : Z) (fileKey fileName : string)
  : list string :=
  fileUrl storageId fileKey
  :: map widget_url (preview_content storageId fileKey fileName).

End WithToLowerCase.

End Preview.

(* ================================================================= *)
(** ** [formatBytes] *)

Module Format.

Definition k : Z := 1024.

Definition sizes : list string := ["B"; "KB"; "MB"; "GB"; "TB"].

(** [Math.floor(Math.log(bytes) / Math.log(k))] for [bytes >= 1], taken at
    its real-number value: the quotient of the two floating-point
    logarithms is replaced by the exact [log_1024 bytes], whose floor is
    [floor (log2 bytes) / 10]. *)
Definition unit_index (bytes : Z) : Z := Z.log2 bytes / Z.log2 k.

(** [sizes[i]]; an index outside the array reads [undefined]. *)
Definition sizes_at (i : Z) : option string :=
  if (i <? 0)%Z then None else nth_error sizes (Z.to_nat i).

(** String concatenation prints [undefined] by its name. *)
Definition concat_operand (v : option string) : string :=
  match v with
  | Some s => s
  | None => "undefined"
  end.

(** [(bytes / scale).toFixed(2)], as a number of hundredths: the nearest
    one, the larger of the two when [bytes / scale] is half-way. *)
Definition toFixed2 (bytes scale : Z) : Z :=
  (200 * bytes + scale) / (2 * scale).

Definition digit (d : Z) : string := JS.number_to_string d.

(** [String(parseFloat(s))] where [s] is the two-decimal rendering of
    [hundredths / 100]: the trailing zeros of the fraction are dropped. *)
Definition print_hundredths (hundredths : Z) : string :=
  let whole := (hundredths / 100)%Z in
  let frac := (hundredths mod 100)%Z in
  JS.number_to_string whole
  ++ (if (frac =? 0)%Z then ""
      else if (frac mod 10 =? 0)%Z then "." ++ digit (frac / 10)
      else "." ++ digit (frac / 10) ++ digit (frac mod 10)).

(** [bytes] is an integer-valued number.  A negative one makes [Math.log]
    return [NaN], which every later step propagates. *)
Definition formatBytes (bytes : Z) : string :=
  if (bytes =? 0)%Z then "-"
  else if (bytes <? 0)%Z then "NaN undefined"
  else
    let i := unit_index bytes in
    print_hundredths (toFixed2 bytes (k ^ i)) ++ " "
    ++ concat_operand (sizes_at i).

(** The unit the result is suffixed with, [None] when the index falls
    outside [sizes]. *)
Definition unit_of (bytes : Z) : option string := sizes_at (unit_index bytes).

End Format.

(* ================================================================= *)
(** ** The home route's [loader] *)

Module Loader.

(** A row of the storage table, as [~/lib/storage] hands it out. *)
Record Storage : Type := mkStorage {
  id : Z;
  name : string;
  endpoint : string;
  region : string;
  accessKeyId : string;
  secretAccessKey : string;
  bucket : string;
  basePath : string;
  isPublic : bool
}.

(** What the loader sends to the client for a storage. *)
Record StorageView : Type := mkStorageView {
  view_id : Z;
  view_name : string;
  view_endpoint : string;
  view_region : string;
  view_accessKeyId : string;
  view_bucket : string;
  view_basePath : string;
  view_isPublic : bool
}.

Record LoaderData : Type := mkLoaderData {
  isAdmin : bool;
  siteTitle : string;
  siteAnnouncement : string;
  storages : list StorageView
}.

(** The object [requireAuth] resolves to; the loader reads [isAdmin]. *)
Record AuthResult : Type := mkAuthResult {
  auth_isAdmin : bool
}.

(** The state of the D1 database: the storage table and whatever else it
    holds (sessions, settings). *)
Record D1 (Other : Type) : Type := mkD1 {
  storage_table : list Storage;
  other_tables : Other
}.
Arguments mkD1 {Other} _ _.
Arguments storage_table {Other} _.
Arguments other_tables {Other} _.

(** [context.cloudflare.env]. *)
Record Env (Db : Type) : Type := mkEnv {
  DB : option Db;
  SITE_TITLE : option string;
  SITE_ANNOUNCEMENT : option string
}.
Arguments mkEnv {Db} _ _ _.
Arguments DB {Db} _.
Arguments SITE_TITLE {Db} _.
Arguments SITE_ANNOUNCEMENT {Db} _.

(** How an awaited promise settles, with the state it leaves behind. *)
Inductive Settled (St A : Type) : Type :=
  | Fulfilled (value : A) (st : St)
  | Rejected (reason : string) (st : St).
Arguments Fulfilled {St A} _ _.
Arguments Rejected {St A} _ _.

(** An asynchronous computation over a state. *)
Definition Async (St A : Type) : Type := St -> Settled St A.

Definition resolve {St A : Type} (a : A) : Async St A :=
  fun st => Fulfilled a st.

(** [await m] followed by [f]: a rejection leaves the function at once. *)
Definition await {St A B : Type} (m : Async St A) (f : A -> Async St B)
  : Async St B :=
  fun st =>
    match m st with
    | Fulfilled a st' => f a st'
    | Rejected reason st' => Rejected reason st'
    end.

Notation "x <- m ;; f" := (await m (fun x => f))
  (at level 61, m at next level, right associativity).

(** The state after the run is the database, when one is bound. *)
Definition with_db {St A : Type} (r : Settled St A) : Settled (option St) A :=
  match r with
  | Fulfilled a st => Fulfilled a (Some st)
  | Rejected reason st => Rejected reason (Some st)
  end.

(** The object literal of the [storages.map] callback. *)
Definition to_view (s : Storage) : StorageView :=
  {| view_id := id s;
     view_name := name s;
     view_endpoint := endpoint s;
     view_region := region s;
     view_accessKeyId := accessKeyId s;
     view_bucket := bucket s;
     view_basePath := basePath s;
     view_isPublic := isPublic s |}.

Section WithCollaborators.

(** The request, the database and the functions imported from [~/lib/auth]
    and [~/lib/storage]. *)
Variables Request Db : Type.
Variable initDatabase : Async Db unit.
Variable requireAuth : Request -> Async Db AuthResult.
Variable getAllStorages : Async Db (list Storage).
Variable getPublicStorages : Async Db (list Storage).

(** The part of the loader that runs once a database is bound. *)
Definition loader_with_db (request : Request) (siteTitle siteAnnouncement : string)
  : Async Db LoaderData :=
  _ <- initDatabase ;;
  auth <- requireAuth request ;;
  let isAdmin := auth_isAdmin auth in
  storages <- (if isAdmin then getAllStorages else getPublicStorages) ;;
  resolve {| isAdmin := isAdmin;
             siteTitle := siteTitle;
             siteAnnouncement := siteAnnouncement;
             storages := map to_view storages |}.

(** [loader({ request, context })]: the lines written by [console.error],
    and how the returned promise settles. *)
Definition loader (request : Request) (env : Env Db)
  : list string * Settled (option Db) LoaderData :=
  let db := DB env in
  let siteTitle := JS.or_default (SITE_TITLE env) "CList" in
  let siteAnnouncement := JS.or_default (SITE_ANNOUNCEMENT env) "" in
  match db with
  | None =>
      (["D1 Database not bound"],
       Fulfilled {| isAdmin := false;
                    storages := [];
                    siteTitle := siteTitle;
                    siteAnnouncement := siteAnnouncement |} None)
  | Some db =>
      ([], with_db (loader_with_db request siteTitle siteAnnouncement db))
  end.

(** Admin gating as the description of the route states it, for every run
    and in its most generous reading: the storages returned are the full
    list of some database state on which [requireAuth] reports an
    administrator, or else the public list of some database state. *)
Definition gated_on_every_run (request : Request) (env : Env Db) : Prop :=
  exists data st,
    snd (loader request env) = Fulfilled data st /\
    ((exists db db1 db2 auth all,
        requireAuth request db = Fulfilled auth db1 /\
        auth_isAdmin auth = true /\
        getAllStorages db1 = Fulfilled all db2 /\
        storages data = map to_view all)
     \/
     (exists db db1 pub,
        getPublicStorages db = Fulfilled pub db1 /\
        storages data = map to_view pub)).

End WithCollaborators.

(** Two rows that agree on everything but the secret key. *)
Definition same_but_secret (a b : Storage) : Prop :=
  id a = id b /\ name a = name b /\ endpoint a = endpoint b /\
  region a = region b /\ accessKeyId a = accessKeyId b /\
  bucket a = bucket b /\ basePath a = basePath b /\ isPublic a = isPublic b.

(** Two database states that differ only in the secret key of some
    storages. *)
Definition differ_only_in_secrets {Other : Type} (d1 d2 : D1 Other) : Prop :=
  Forall2 same_but_secret (storage_table d1) (storage_table d2) /\
  other_tables d1 = other_tables d2.

(** Two settlements that an observer of everything but the secret keys
    cannot tell apart: both fulfilled with values related by [R], or both
    rejected for the same reason, leaving databases that still differ only
    in secret keys. *)
Definition alike {Other A : Type} (R : A -> A -> Prop)
  (r1 r2 : Settled (D1 Other) A) : Prop :=
  match r1, r2 with
  | Fulfilled a1 d1, Fulfilled a2 d2 => R a1 a2 /\ differ_only_in_secrets d1 d2
  | Rejected e1 d1, Rejected e2 d2 => e1 = e2 /\ differ_only_in_secrets d1 d2
  | _, _ => False
  end.

(** A collaborator whose behaviour does not depend on secret keys. *)
Definition secret_independent {Other A : Type} (R : A -> A -> Prop)
  (m : Async (D1 Other) A) : Prop :=
  forall d1 d2, differ_only_in_secrets d1 d2 -> alike R (m d1) (m d2).

(** What the client receives from a run: the value the promise is
    fulfilled with, or the reason it is rejected for. *)
Definition client_sees {St A : Type} (r : Settled St A) : A + string :=
  match r with
  | Fulfilled a _ => inl a
  | Rejected reason _ => inr reason
  end.

(** *** A concrete deployment

    One instance of the collaborators, on which the statements below are
    exercised: the database needs no migration, the request carries a flag
    telling whether its session is the administrator's, and the two
    queries read the storage table. *)

Definition demo_initDatabase : Async (D1 unit) unit := resolve tt.

Definition demo_requireAuth (session_is_admin : bool)
  : Async (D1 unit) AuthResult :=
  resolve {| auth_isAdmin := session_is_admin |}.

Definition demo_getAllStorages : Async (D1 unit) (list Storage) :=
  fun db => Fulfilled (storage_table db) db.

Definition demo_getPublicStorages : Async (D1 unit) (list Storage) :=
  fun db => Fulfilled (filter isPublic (storage_table db)) db.

Definition demo_loader := 
  loader bool (D1 unit) demo_initDatabase demo_requireAuth
    demo_getAllStorages demo_getPublicStorages.

Definition r2_media (secret : string) : Storage :=
  {| id := 1; name := "media"; endpoint := "https://r2.example.com";
     region := "auto"; accessKeyId := "AKIA1"; secretAccessKey := secret;
     bucket := "media"; basePath := ""; isPublic := true |}.

Definition s3_backup (secret : string) : Storage :=
  {| id := 2; name := "backup"; endpoint := "https://s3.example.com";
     region := "us-east-1"; accessKeyId := "AKIA2"; secretAccessKey := secret;
     bucket := "backup"; basePath := "daily"; isPublic := false |}.

Definition demo_db (secret1 secret2 : string) : D1 unit :=
  {| storage_table := [r2_media secret1; s3_backup secret2];
     other_tables := tt |}.

Definition demo_env (db : option (D1 unit)) : Env (D1 unit) :=
  {| DB := db; SITE_TITLE := None; SITE_ANNOUNCEMENT := Some "" |}.

(** *** A deployment with a fixed database

    The database has a single state, which holds the two storages above;
    every request is anonymous. *)

Definition fixed_initDatabase : Async unit unit := resolve tt.

Definition fixed_requireAuth (_ : unit) : Async unit AuthResult :=
  resolve {| auth_isAdmin := false |}.

Definition fixed_getAllStorages : Async unit (list Storage) :=
  resolve [r2_media "k1"; s3_backup "k2"].

Definition fixed_getPublicStorages : Async unit (list Storage) :=
  resolve [r2_media "k1"].

(** The worker of that deployment, started without the [DB] binding. *)
Definition unbound_env : Env unit :=
  {| DB := None; SITE_TITLE := Some "Files"; SITE_ANNOUNCEMENT := None |}.

End Loader.

(* ================================================================= *)
(** ** Requests, responses and the effects of event handlers *)

Module Http.

Inductive Method : Type := GET | POST | PUT | DELETE.

(** The values the request bodies of the page are made of. *)
Inductive Json : Type :=
  | JsonString (s : string)
  | JsonNumber (n : Z)
  | JsonBool (b : bool).

(** [JSON.stringify] of an object literal: a property whose value is
    [undefined] is left out.  The body is kept as the JSON value the text
    denotes. *)
Fixpoint stringify_object (props : list (string * option Json))
  : list (string * Json) :=
  match props with
  | [] => []
  | (key, Some v) :: rest => (key, v) :: stringify_object rest
  | (_, None) :: rest => stringify_object rest
  end.

Inductive Body : Type :=
  | NoBody
  | JsonBody (members : list (string * Json))
  | FileBody (fileName : string).

Record Request : Type := mkRequest {
  method : Method;
  url : string;
  headers : list (string * string);
  body : Body
}.

(** An S3 object of a listing. *)
Record S3Object : Type := mkS3Object {
  key : string;
  name : string;
  size : Z;
  lastModified : string;
  isDirectory : bool
}.

(** A storage as the client knows it ([StorageInfo]). *)
Record StorageInfo : Type := mkStorageInfo {
  id : Z;
  storage_name : string;
  endpoint : option string;
  region : option string;
  accessKeyId : option string;
  bucket : option string;
  basePath : option string;
  isPublic : bool
}.

(** The fields the handlers read from a JSON response; a field the server
    did not send is [None]. *)
Record ResponseData : Type := mkResponseData {
  objects : option (list S3Object);
  error : option string;
  success : option bool;
  filename : option string;
  data_size : option Z;
  data_storages : option (list StorageInfo);
  data_isAdmin : option bool
}.

(** How a request ends: the promise rejects (no connection), or a response
    arrives with its [ok] flag and its body, [None] when the body is not
    JSON (so that [res.json()] rejects). *)
Inductive Outcome : Type :=
  | NetworkError
  | Response (ok : bool) (data : option ResponseData).

(** The network, as the page meets it: the outcome of the n-th request
    issued since the log was empty. *)
Definition Net : Type := nat -> Outcome.

(** What a handler leaves behind besides component state. *)
Record Log : Type := mkLog {
  requests : list Request;
  alerts : list string
}.

Definition empty_log : Log := {| requests := []; alerts := [] |}.

(** A handler over component state [St]. *)
Definition Eff (St A : Type) : Type := Net -> St -> Log -> A * St * Log.

Definition ret {St A : Type} (a : A) : Eff St A :=
  fun _ st log => (a, st, log).

Definition bind {St A B : Type} (m : Eff St A) (f : A -> Eff St B) : Eff St B :=
  fun net st log =>
    match m net st log with
    | (a, st', log') => f a net st' log'
    end.

Definition get {St : Type} : Eff St St :=
  fun _ st log => (st, st, log).

(** A state setter of a [useState] hook. *)
Definition set {St : Type} (update : St -> St) : Eff St unit :=
  fun _ st log => (tt, update st, log).

(** [fetch], [XMLHttpRequest.send] or [window.open]: the request is logged
    and the network answers. *)
Definition send {St : Type} (r : Request) : Eff St Outcome :=
  fun net st log =>
    (net (List.length (requests log)), st,
     {| requests := (requests log ++ [r])%list; alerts := alerts log |}).

Definition alert {St : Type} (message : string) : Eff St unit :=
  fun _ st log =>
    (tt, st, {| requests := requests log; alerts := (alerts log ++ [message])%list |}).

(** Run a handler from a given state with nothing logged yet. *)
Definition run {St A : Type} (m : Eff St A) (net : Net) (st : St) : St * Log :=
  match m net st empty_log with
  | (_, st', log) => (st', log)
  end.

Definition json_headers : list (string * string) :=
  [("Content-Type", "application/json")].

End Http.

Notation "x <- m ;;; f" := (Http.bind m (fun x => f))
  (at level 61, m at next level, right associativity).
Notation "m ;;; f" := (Http.bind m (fun _ => f))
  (at level 61, right associativity).

(* ================================================================= *)
(** ** The file browser ([FileBrowser]) *)

Module Browser.

Import Http.

(** The [useState] cells of the component. *)
Record State : Type := mkState {
  path : string;
  objects : list S3Object;
  loading : bool;
  error : string;
  uploadProgress : option (string * Z);
  previewFile : option S3Object;
  showNewFolderInput : bool;
  newFolderName : string;
  creatingFolder : bool;
  showOfflineDownload : bool;
  offlineUrl : string;
  offlineFilename : string;
  offlineDownloading : bool
}.

Definition setPath (v : string) (s : State) : State :=
  mkState v (objects s) (loading s) (error s) (uploadProgress s)
    (previewFile s) (showNewFolderInput s) (newFolderName s)
    (creatingFolder s) (showOfflineDownload s) (offlineUrl s)
    (offlineFilename s) (offlineDownloading s).

Definition setObjects (v : list S3Object) (s : State) : State :=
  mkState (path s) v (loading s) (error s) (uploadProgress s)
    (previewFile s) (showNewFolderInput s) (newFolderName s)
    (creatingFolder s) (showOfflineDownload s) (offlineUrl s)
    (offlineFilename s) (offlineDownloading s).

Definition setLoading (v : bool) (s : State) : State :=
  mkState (path s) (objects s) v (error s) (uploadProgress s)
    (previewFile s) (showNewFolderInput s) (newFolderName s)
    (creatingFolder s) (showOfflineDownload s) (offlineUrl s)
    (offlineFilename s) (offlineDownloading s).

Definition setError (v : string) (s : State) : State :=
  mkState (path s) (objects s) (loading s) v (uploadProgress s)
    (previewFile s) (showNewFolderInput s) (newFolderName s)
    (creatingFolder s) (showOfflineDownload s) (offlineUrl s)
    (offlineFilename s) (offlineDownloading s).

Definition setUploadProgress (v : option (string * Z)) (s : State) : State :=
  mkState (path s) (objects s) (loading s) (error s) v
    (previewFile s) (showNewFolderInput s) (newFolderName s)
    (creatingFolder s) (showOfflineDownload s) (offlineUrl s)
    (offlineFilename s) (offlineDownloading s).

Definition setShowNewFolderInput (v : bool) (s : State) : State :=
  mkState (path s) (objects s) (loading s) (error s) (uploadProgress s)
    (previewFile s) v (newFolderName s)
    (creatingFolder s) (showOfflineDownload s) (offlineUrl s)
    (offlineFilename s) (offlineDownloading s).

Definition setNewFolderName (v : string) (s : State) : State :=
  mkState (path s) (objects s) (loading s) (error s) (uploadProgress s)
    (previewFile s) (showNewFolderInput s) v
    (creatingFolder s) (showOfflineDownload s) (offlineUrl s)
    (offlineFilename s) (offlineDownloading s).

Definition setCreatingFolder (v : bool) (s : State) : State :=
  mkState (path s) (objects s) (loading s) (error s) (uploadProgress s)
    (previewFile s) (showNewFolderInput s) (newFolderName s)
    v (showOfflineDownload s) (offlineUrl s)
    (offlineFilename s) (offlineDownloading s).

Definition setShowOfflineDownload (v : bool) (s : State) : State :=
  mkState (path s) (objects s) (loading s) (error s) (uploadProgress s)
    (previewFile s) (showNewFolderInput s) (newFolderName s)
    (creatingFolder s) v (offlineUrl s)
    (offlineFilename s) (offlineDownloading s).

Definition setOfflineUrl (v : string) (s : State) : State :=
  mkState (path s) (objects s) (loading s) (error s) (uploadProgress s)
    (previewFile s) (showNewFolderInput s) (newFolderName s)
    (creatingFolder s) (showOfflineDownload s) v
    (offlineFilename s) (offlineDownloading s).

Definition setOfflineFilename (v : string) (s : State) : State :=
  mkState (path s) (objects s) (loading s) (error s) (uploadProgress s)
    (previewFile s) (showNewFolderInput s) (newFolderName s)
    (creatingFolder s) (showOfflineDownload s) (offlineUrl s)
    v (offlineDownloading s).

Definition setOfflineDownloading (v : bool) (s : State) : State :=
  mkState (path s) (objects s) (loading s) (error s) (uploadProgress s)
    (previewFile s) (showNewFolderInput s) (newFolderName s)
    (creatingFolder s) (showOfflineDownload s) (offlineUrl s)
    (offlineFilename s) v.

(** A file picked in the upload input. *)
Record File : Type := mkFile {
  file_name : string;
  file_type : string
}.

(** [`/api/files/${storage.id}/${rest}`]. *)
Definition files_url (storage : StorageInfo) (rest : string) : string :=
  "/api/files/" ++ JS.number_to_string (id storage) ++ "/" ++ rest.

(** [s.replace(/^\//, "")] and [s.replace(/\/$/, "")]. *)
Definition strip_leading_slash (s : string) : string :=
  match s with
  | String "/" rest => rest
  | _ => s
  end.

Fixpoint strip_trailing_slash (s : string) : string :=
  match s with
  | EmptyString => EmptyString
  | String "/" EmptyString => EmptyString
  | String c rest => String c (strip_trailing_slash rest)
  end.

Definition navigateTo (newPath : string) (s : State) : State :=
  setPath (strip_trailing_slash (strip_leading_slash newPath)) s.

Definition goUp (s : State) : State :=
  let parts := filter JS.truthy (JS.split "/" (path s)) in
  let parts := JS.pop parts in
  setPath (JS.join "/" parts) s.

Definition breadcrumbs (s : State) : list string :=
  if JS.truthy (path s) then filter JS.truthy (JS.split "/" (path s)) else [].

(** The maximal runs of characters other than ['/'] of a path, read from
    left to right; [current] holds the run being read. *)
Fixpoint segments_from (current : string) (s : string) : list string :=
  match s with
  | EmptyString => if JS.truthy current then [current] else []
  | String c rest =>
      if Ascii.eqb c "/"
      then (if JS.truthy current then [current] else [])
           ++ segments_from EmptyString rest
      else segments_from (current ++ String c EmptyString) rest
  end%list.

(** The non-empty ['/']-separated segments of a path. *)
Definition segments (p : string) : list string := segments_from EmptyString p.

(** The handlers below run to completion one after the other.  Where the
    source starts [loadFiles()] without awaiting it, the statements that
    follow the call touch other state cells than [loadFiles] does, so the
    order in which they are written here leaves the same state and the same
    log.  Upload progress events, which only show a percentage while a file
    is sent, are left out. *)

Section WithStorage.

Variable trim : string -> string.
Variable storage : StorageInfo.

(** The request of [loadFiles] for a path. *)
Definition list_request (p : string) : Request :=
  {| method := GET;
     url := files_url storage (p ++ "?action=list");
     headers := [];
     body := NoBody |}.

Definition loadFiles : Eff State unit :=
  st <- get ;;;
  set (setLoading true) ;;;
  set (setError "") ;;;
  res <- send (list_request (path st)) ;;;
  match res with
  | Response true (Some data) =>
      set (setObjects (match Http.objects data with
                       | Some l => l
                       | None => []
                       end))
  | Response false (Some data) =>
      set (setError (JS.or_default (Http.error data) "加载失败"))
  | Response _ None | NetworkError =>
      set (setError "网络错误")
  end ;;;
  set (setLoading false).

Definition downloadFile (key : string) : Eff State unit :=
  _ <- send {| method := GET;
               url := files_url storage (key ++ "?action=download");
               headers := [];
               body := NoBody |} ;;;
  ret tt.

(** [confirmed] is the answer to the [confirm] dialog. *)
Definition deleteFile (key : string) (confirmed : bool) : Eff State unit :=
  if negb confirmed then ret tt
  else
    res <- send {| method := DELETE;
                   url := files_url storage key;
                   headers := [];
                   body := NoBody |} ;;;
    match res with
    | Response true _ => loadFiles
    | Response false (Some data) =>
        alert (JS.or_default (Http.error data) "删除失败")
    | Response false None | NetworkError => alert "网络错误"
    end.

Definition deleteFolder (key name : string) (confirmed : bool)
  : Eff State unit :=
  if negb confirmed then ret tt
  else
    res <- send {| method := DELETE;
                   url := files_url storage (key ++ "?action=rmdir");
                   headers := [];
                   body := NoBody |} ;;;
    match res with
    | Response true _ => loadFiles
    | Response false (Some data) =>
        alert (JS.or_default (Http.error data) "删除失败")
    | Response false None | NetworkError => alert "网络错误"
    end.

(** One turn of the [for] loop of [handleUpload]; [path] is the path of
    the render the handler belongs to. *)
Definition upload_one (path : string) (file : File) : Eff State unit :=
  let uploadPath :=
    if JS.truthy path then path ++ "/" ++ file_name file else file_name file in
  res <- send {| method := PUT;
                 url := files_url storage uploadPath;
                 headers := [("Content-Type",
                              JS.or_else (file_type file)
                                "application/octet-stream")];
                 body := FileBody (file_name file) |} ;;;
  match res with
  | Response true _ => ret tt
  | Response false (Some data) =>
      alert ("上传 " ++ file_name file ++ " 失败: "
             ++ JS.or_default (Http.error data) "上传失败")
  | Response false None =>
      alert ("上传 " ++ file_name file ++ " 失败: " ++ "上传失败")
  | NetworkError =>
      alert ("上传 " ++ file_name file ++ " 失败: " ++ "网络错误")
  end.

Fixpoint upload_all (path : string) (files : list File) : Eff State unit :=
  match files with
  | [] => ret tt
  | file :: rest => upload_one path file ;;; upload_all path rest
  end.

Definition handleUpload (files : list File) : Eff State unit :=
  match files with
  | [] => ret tt
  | _ =>
      st <- get ;;;
      upload_all (path st) files ;;;
      set (setUploadProgress None) ;;;
      loadFiles
  end.

Definition handleCreateFolder : Eff State unit :=
  st <- get ;;;
  if negb (JS.truthy (trim (newFolderName st))) then ret tt
  else
    set (setCreatingFolder true) ;;;
    let folderPath :=
      if JS.truthy (path st)
      then path st ++ "/" ++ trim (newFolderName st)
      else trim (newFolderName st) in
    res <- send {| method := POST;
                   url := files_url storage (folderPath ++ "?action=mkdir");
                   headers := [];
                   body := NoBody |} ;;;
    match res with
    | Response true _ =>
        set (setNewFolderName "") ;;;
        set (setShowNewFolderInput false) ;;;
        loadFiles
    | Response false (Some data) =>
        alert (JS.or_default (Http.error data) "创建文件夹失败")
    | Response false None | NetworkError => alert "网络错误"
    end ;;;
    set (setCreatingFolder false).

(** [offlineFilename.trim() || undefined]. *)
Definition filename_or_undefined (name : string) : option Json :=
  if JS.truthy (trim name) then Some (JsonString (trim name)) else None.

Definition handleOfflineDownload : Eff State unit :=
  st <- get ;;;
  if negb (JS.truthy (trim (offlineUrl st))) then ret tt
  else
    set (setOfflineDownloading true) ;;;
    res <- send {| method := POST;
                   url := files_url storage (path st ++ "?action=fetch");
                   headers := json_headers;
                   body := JsonBody (stringify_object
                     [("url", Some (JsonString (trim (offlineUrl st))));
                      ("filename", filename_or_undefined (offlineFilename st))])
                |} ;;;
    match res with
    | Response ok (Some data) =>
        if andb ok (match success data with Some b => b | None => false end)
        then
          let sizeStr :=
            match data_size data with
            | Some n => if (n =? 0)%Z then ""
                        else " (" ++ Format.formatBytes n ++ ")"
            | None => ""
            end in
          alert ("下载成功: "
                 ++ Format.concat_operand (filename data) ++ sizeStr) ;;;
          set (setOfflineUrl "") ;;;
          set (setOfflineFilename "") ;;;
          set (setShowOfflineDownload false) ;;;
          loadFiles
        else alert (JS.or_default (Http.error data) "下载失败")
    | Response _ None | NetworkError => alert "网络错误"
    end ;;;
    set (setOfflineDownloading false).

End WithStorage.

(** *** A concrete session

    The browser of storage 7 stands in [videos/2024]; the administrator
    has pasted a link, padded with blanks, and left the file name blank.
    The server fetches the file, then lists the directory. *)

Definition demo_storage : StorageInfo :=
  {| id := 7; storage_name := "media";
     endpoint := None; region := None; accessKeyId := None;
     bucket := None; basePath := None; isPublic := true |}.

Definition demo_state (link : string) : State :=
  {| path := "videos/2024"; objects := []; loading := false; error := "";
     uploadProgress := None; previewFile := None;
     showNewFolderInput := false; newFolderName := "";
     creatingFolder := false; showOfflineDownload := true;
     offlineUrl := link; offlineFilename := "  ";
     offlineDownloading := false |}.

Definition demo_clip : S3Object :=
  {| key := "videos/2024/clip.mp4"; name := "clip.mp4"; size := 1536;
     lastModified := "2024-05-01T10:00:00Z"; isDirectory := false |}.

Definition demo_net : Net :=
  fun n =>
    match n with
    | O => Response true
             (Some {| Http.objects := None; Http.error := None;
                      success := Some true; filename := Some "clip.mp4";
                      data_size := Some 1536%Z;
                      data_storages := None; data_isAdmin := None |})
    | _ => Response true
             (Some {| Http.objects := Some [demo_clip]; Http.error := None;
                      success := None; filename := None; data_size := None;
                      data_storages := None; data_isAdmin := None |})
    end.

End Browser.

(* ================================================================= *)
(** ** The page ([Home]) and its modals *)

Module Home.

Import Http.

(** The state cells the request handlers of the page and of its two modals
    read or write; [None] in [isAdmin] or [storages] is [undefined], which
    a response lacking the field would store there. *)
Record State : Type := mkState {
  isAdmin : option bool;
  storages : option (list StorageInfo);
  selectedStorage : option StorageInfo;
  showLogin : bool;
  showStorageForm : bool;
  editingStorage : option StorageInfo;
  modal_loading : bool;
  modal_error : string
}.

Definition setIsAdmin (v : option bool) (s : State) : State :=
  mkState v (storages s) (selectedStorage s) (showLogin s)
    (showStorageForm s) (editingStorage s) (modal_loading s) (modal_error s).

Definition setStorages (v : option (list StorageInfo)) (s : State) : State :=
  mkState (isAdmin s) v (selectedStorage s) (showLogin s)
    (showStorageForm s) (editingStorage s) (modal_loading s) (modal_error s).

Definition setSelectedStorage (v : option StorageInfo) (s : State) : State :=
  mkState (isAdmin s) (storages s) v (showLogin s)
    (showStorageForm s) (editingStorage s) (modal_loading s) (modal_error s).

Definition setShowLogin (v : bool) (s : State) : State :=
  mkState (isAdmin s) (storages s) (selectedStorage s) v
    (showStorageForm s) (editingStorage s) (modal_loading s) (modal_error s).

Definition setShowStorageForm (v : bool) (s : State) : State :=
  mkState (isAdmin s) (storages s) (selectedStorage s) (showLogin s)
    v (editingStorage s) (modal_loading s) (modal_error s).

Definition setEditingStorage (v : option StorageInfo) (s : State) : State :=
  mkState (isAdmin s) (storages s) (selectedStorage s) (showLogin s)
    (showStorageForm s) v (modal_loading s) (modal_error s).

Definition setLoading (v : bool) (s : State) : State :=
  mkState (isAdmin s) (storages s) (selectedStorage s) (showLogin s)
    (showStorageForm s) (editingStorage s) v (modal_error s).

Definition setError (v : string) (s : State) : State :=
  mkState (isAdmin s) (storages s) (selectedStorage s) (showLogin s)
    (showStorageForm s) (editingStorage s) (modal_loading s) v.

(** The form of the storage modal. *)
Record FormData : Type := mkFormData {
  form_name : string;
  form_endpoint : string;
  form_region : string;
  form_accessKeyId : string;
  form_secretAccessKey : string;
  form_bucket : string;
  form_basePath : string;
  form_isPublic : bool
}.

Definition refreshStorages : Eff State unit :=
  res <- send {| method := GET;
                 url := "/api/storages";
                 headers := [];
                 body := NoBody |} ;;;
  match res with
  | Response true (Some data) =>
      set (setStorages (data_storages data)) ;;;
      set (setIsAdmin (data_isAdmin data))
  | _ => ret tt
  end.

(** [handleSubmit] of [LoginModal], with the [onLogin] the page passes:
    [setShowLogin(false); refreshStorages(); setIsAdmin(true)].  The
    response to [refreshStorages] arrives after [setIsAdmin(true)] has
    run, hence the order below. *)
Definition LoginModal_handleSubmit (username password : string) : Eff State unit :=
  set (setLoading true) ;;;
  set (setError "") ;;;
  res <- send {| method := POST;
                 url := "/api/storages";
                 headers := json_headers;
                 body := JsonBody (stringify_object
                   [("action", Some (JsonString "login"));
                    ("username", Some (JsonString username));
                    ("password", Some (JsonString password))]) |} ;;;
  match res with
  | Response true _ =>
      set (setShowLogin false) ;;;
      set (setIsAdmin (Some true)) ;;;
      refreshStorages
  | Response false (Some data) =>
      set (setError (JS.or_default (Http.error data) "登录失败"))
  | Response false None | NetworkError => set (setError "网络错误")
  end ;;;
  set (setLoading false).

(** The body of [handleSubmit] of [StorageModal]: the form, preceded by
    the id when a storage is edited, and without the secret key when an
    edit leaves it blank. *)
Definition storage_body (storage : option StorageInfo) (formData : FormData)
  : list (string * option Json) :=
  (match storage with
   | Some s => [("id", Some (JsonNumber (id s)))]
   | None => []
   end
   ++
   [("name", Some (JsonString (form_name formData)));
    ("endpoint", Some (JsonString (form_endpoint formData)));
    ("region", Some (JsonString (form_region formData)));
    ("accessKeyId", Some (JsonString (form_accessKeyId formData)));
    ("secretAccessKey",
      match storage with
      | Some _ =>
          if JS.truthy (form_secretAccessKey formData)
          then Some (JsonString (form_secretAccessKey formData))
          else None
      | None => Some (JsonString (form_secretAccessKey formData))
      end);
    ("bucket", Some (JsonString (form_bucket formData)));
    ("basePath", Some (JsonString (form_basePath formData)));
    ("isPublic", Some (JsonBool (form_isPublic formData)))])%list.

(** [handleSubmit] of [StorageModal], with the [onSave] the page passes. *)
Definition StorageModal_handleSubmit (storage : option StorageInfo)
  (formData : FormData) : Eff State unit :=
  set (setLoading true) ;;;
  set (setError "") ;;;
  res <- send {| method := match storage with Some _ => PUT | None => POST end;
                 url := "/api/storages";
                 headers := json_headers;
                 body := JsonBody (stringify_object
                                     (storage_body storage formData)) |} ;;;
  match res with
  | Response true _ =>
      set (setShowStorageForm false) ;;;
      set (setEditingStorage None) ;;;
      refreshStorages
  | Response false (Some data) =>
      set (setError (JS.or_default (Http.error data) "保存失败"))
  | Response false None | NetworkError => set (setError "网络错误")
  end ;;;
  set (setLoading false).

Definition handleLogout : Eff State unit :=
  res <- send {| method := POST;
                 url := "/api/storages";
                 headers := json_headers;
                 body := JsonBody (stringify_object
                   [("action", Some (JsonString "logout"))]) |} ;;;
  match res with
  | NetworkError => ret tt
  | Response _ _ =>
      set (setIsAdmin (Some false)) ;;;
      set (setSelectedStorage None) ;;;
      refreshStorages
  end.

Definition handleDeleteStorage (s : StorageInfo) (confirmed : bool)
  : Eff State unit :=
  if negb confirmed then ret tt
  else
    st <- get ;;;
    res <- send {| method := DELETE;
                   url := "/api/storages?id=" ++ JS.number_to_string (id s);
                   headers := [];
                   body := NoBody |} ;;;
    match res with
    | Response true _ =>
        (match selectedStorage st with
         | Some sel => if (id sel =? id s)%Z
                       then set (setSelectedStorage None) else ret tt
         | None => ret tt
         end) ;;;
        refreshStorages
    | _ => ret tt
    end.

End Home.

(* ================================================================= *)
(** ** Every place of the client that issues a request *)

Module Client.

Import Http.

(** The user actions and effects that reach the network, with what the
    user supplies to each. *)
Inductive Action : Type :=
  (* FileBrowser *)
  | LoadFiles
  | DownloadFile (key : string)
  | DeleteFile (key : string) (confirmed : bool)
  | DeleteFolder (key name : string) (confirmed : bool)
  | HandleUpload (files : list Browser.File)
  | HandleCreateFolder
  | HandleOfflineDownload
  (* FilePreview, opened by the browser on one of its objects *)
  | OpenPreview (fileKey fileName : string)
  (* Home and its modals *)
  | Login (username password : string)
  | SubmitStorage (editing : option StorageInfo) (formData : Home.FormData)
  | RefreshStorages
  | Logout
  | DeleteStorage (s : StorageInfo) (confirmed : bool).

Section WithBuiltins.

Variable toLowerCase : string -> string.
Variable trim : string -> string.

(** The requests an action issues, from the states of the page and of the
    browser of the selected storage. *)
Definition issued (storage : StorageInfo) (a : Action) (net : Net)
  (browser : Browser.State) (home : Home.State) : list Request :=
  let in_browser m := requests (snd (run m net browser)) in
  let in_home m := requests (snd (run m net home)) in
  match a with
  | LoadFiles => in_browser (Browser.loadFiles storage)
  | DownloadFile key => in_browser (Browser.downloadFile storage key)
  | DeleteFile key c => in_browser (Browser.deleteFile storage key c)
  | DeleteFolder key name c =>
      in_browser (Browser.deleteFolder storage key name c)
  | HandleUpload files => in_browser (Browser.handleUpload storage files)
  | HandleCreateFolder => in_browser (Browser.handleCreateFolder trim storage)
  | HandleOfflineDownload =>
      in_browser (Browser.handleOfflineDownload trim storage)
  | OpenPreview fileKey fileName =>
      map (fun u => {| method := GET; url := u; headers := []; body := NoBody |})
        (Preview.preview_urls toLowerCase (id storage) fileKey fileName)
  | Login username password =>
      in_home (Home.LoginModal_handleSubmit username password)
  | SubmitStorage editing formData =>
      in_home (Home.StorageModal_handleSubmit editing formData)
  | RefreshStorages => in_home Home.refreshStorages
  | Logout => in_home Home.handleLogout
  | DeleteStorage s c => in_home (Home.handleDeleteStorage s c)
  end.

(** The two endpoint families. *)
Definition targets_api (storageId : Z) (u : string) : bool :=
  orb (JS.startsWith "/api/storages" u)
      (JS.startsWith ("/api/files/" ++ JS.number_to_string storageId ++ "/") u).

End WithBuiltins.

(** A log whose requests all target the API of the storage, and a handler
    that keeps a log so. *)
Definition api_log (storageId : Z) (log : Log) : Prop :=
  Forall (fun r => targets_api storageId (url r) = true) (requests log).

Definition keeps_api (storageId : Z) {St A : Type} (m : Eff St A) : Prop :=
  forall net st log,
    api_log storageId log -> api_log storageId (snd (m net st log)).

End Client.

(* ================================================================= *)
(** ** What the handlers send, and what answers mean to them *)

Module Sent.

Import Http.

(** A handler that adds to the log only requests satisfying [P]. *)
Definition sends_only {St A : Type} (P : Request -> Prop) (m : Eff St A)
  : Prop :=
  forall net st log,
    Forall P (requests log) -> Forall P (requests (snd (m net st log))).

Definition not_a_delete (r : Request) : Prop := method r <> DELETE.

(** [res.ok] of an answer; a request that found no server has none. *)
Definition is_ok (o : Outcome) : bool :=
  match o with
  | Response ok _ => ok
  | NetworkError => false
  end.

(** Whether an action is a deletion the user has confirmed in the
    [confirm] dialog. *)
Definition confirmed_deletion (a : Client.Action) : bool :=
  match a with
  | Client.DeleteFile _ confirmed
  | Client.DeleteFolder _ _ confirmed
  | Client.DeleteStorage _ confirmed => confirmed
  | _ => false
  end.

(** The request that uploads a file from a browser standing at [path]. *)
Definition upload_request (storage : StorageInfo) (path : string)
  (file : Browser.File) : Request :=
  {| method := PUT;
     url := Browser.files_url storage
              (if JS.truthy path
               then path ++ "/" ++ Browser.file_name file
               else Browser.file_name file);
     headers := [("Content-Type",
                  JS.or_else (Browser.file_type file)
                    "application/octet-stream")];
     body := FileBody (Browser.file_name file) |}.

(** Whether the server reports an offline download as done:
    [res.ok && data.success]. *)
Definition download_succeeded (o : Outcome) : bool :=
  match o with
  | Response true (Some data) =>
      match success data with
      | Some b => b
      | None => false
      end
  | _ => false
  end.

End Sent.

(** *** More of the concrete session *)

Module Session.

Import Http.

(** Two files picked for upload; the second has no MIME type. *)
Definition picked : list Browser.File :=
  [ {| Browser.file_name := "a.png"; Browser.file_type := "image/png" |};
    {| Browser.file_name := "notes"; Browser.file_type := "" |} ].

(** A server that refuses everything with a message. *)
Definition refusing : Net :=
  fun _ => Response false
             (Some {| Http.objects := None; Http.error := Some "forbidden";
                      success := None; filename := None; data_size := None;
                      data_storages := None; data_isAdmin := None |}).

(** A browser at the root in which a folder name has been typed. *)
Definition naming_folder (name : string) : Browser.State :=
  {| Browser.path := ""; Browser.objects := []; Browser.loading := false;
     Browser.error := ""; Browser.uploadProgress := None;
     Browser.previewFile := None;
     Browser.showNewFolderInput := true; Browser.newFolderName := name;
     Browser.creatingFolder := false; Browser.showOfflineDownload := false;
     Browser.offlineUrl := ""; Browser.offlineFilename := "";
     Browser.offlineDownloading := false |}.

End Session.

(** *** A page on which the administrator works *)

Module Office.

Import Http.

Definition media : StorageInfo :=
  {| id := 1; storage_name := "media";
     endpoint := Some "https://r2.example.com"; region := Some "auto";
     accessKeyId := Some "AKIA1"; bucket := Some "media";
     basePath := None; isPublic := true |}.

Definition backup : StorageInfo :=
  {| id := 2; storage_name := "backup";
     endpoint := Some "https://s3.example.com"; region := Some "us-east-1";
     accessKeyId := Some "AKIA2"; bucket := Some "backup";
     basePath := Some "daily"; isPublic := false |}.

(** A visitor's page with the login modal open. *)
Definition visitor : Home.State :=
  {| Home.isAdmin := Some false; Home.storages := Some [media];
     Home.selectedStorage := Some media; Home.showLogin := true;
     Home.showStorageForm := false; Home.editingStorage := None;
     Home.modal_loading := false; Home.modal_error := "" |}.

(** The administrator's page, with [backup] selected. *)
Definition admin : Home.State :=
  {| Home.isAdmin := Some true; Home.storages := Some [media; backup];
     Home.selectedStorage := Some backup; Home.showLogin := false;
     Home.showStorageForm := true; Home.editingStorage := Some backup;
     Home.modal_loading := false; Home.modal_error := "" |}.

(** The form of [backup], the secret key left blank. *)
Definition form (secret : string) : Home.FormData :=
  {| Home.form_name := "backup";
     Home.form_endpoint := "https://s3.example.com";
     Home.form_region := "us-east-1";
     Home.form_accessKeyId := "AKIA2";
     Home.form_secretAccessKey := secret;
     Home.form_bucket := "backup";
     Home.form_basePath := "daily";
     Home.form_isPublic := false |}.

(** A server that accepts everything and answers with no JSON fields. *)
Definition accepting : Net :=
  fun _ => Response true
             (Some {| Http.objects := None; Http.error := None;
                      success := None; filename := None; data_size := None;
                      data_storages := Some [media]; data_isAdmin := Some true |}).

End Office.

(* ================================================================= *)
(** ** Moving through folders and previews *)

Module Navigation.

Import Http.
Import Browser.

(** The [onClick] of the [i]-th breadcrumb:
    [navigateTo(breadcrumbs.slice(0, i + 1).join("/"))]. *)
Definition clickBreadcrumb (i : nat) (s : State) : State :=
  navigateTo (JS.join "/" (firstn (i + 1) (breadcrumbs s))) s.

(** A segment as a path is made of: not empty, and without slash. *)
Definition clean (segment : string) : Prop :=
  JS.truthy segment = true /\ JS.contains "/" segment = false.

(** [arr.findIndex(pred)]: the index of the first element satisfying the
    predicate, [-1] when there is none. *)
Fixpoint findIndex {A : Type} (pred : A -> bool) (arr : list A) : Z :=
  match arr with
  | [] => (-1)%Z
  | x :: rest =>
      if pred x then 0%Z
      else match findIndex pred rest with
           | Zneg _ => (-1)%Z
           | i => (i + 1)%Z
           end
  end.

(** [arr[i]] for a number [i]: [undefined] outside the array. *)
Definition at_index {A : Type} (arr : list A) (i : Z) : option A :=
  if (i <? 0)%Z then None else nth_error arr (Z.to_nat i).

Definition setPreviewFile (v : option S3Object) (s : State) : State :=
  mkState (path s) (objects s) (loading s) (error s) (uploadProgress s)
    v (showNewFolderInput s) (newFolderName s)
    (creatingFolder s) (showOfflineDownload s) (offlineUrl s)
    (offlineFilename s) (offlineDownloading s).

Section WithToLowerCase.

Variable toLowerCase : string -> string.

Definition previewableFiles (s : State) : list S3Object :=
  filter (fun obj => andb (negb (isDirectory obj))
                          (FileUtils.isPreviewable toLowerCase (name obj)))
    (objects s).

Definition currentPreviewIndex (s : State) : Z :=
  match previewFile s with
  | Some file =>
      findIndex (fun f => String.eqb (key f) (key file)) (previewableFiles s)
  | None => (-1)%Z
  end.

Definition handlePreview (obj : S3Object) (s : State) : State :=
  if FileUtils.isPreviewable toLowerCase (name obj)
  then setPreviewFile (Some obj) s
  else s.

Definition handlePrevPreview (s : State) : State :=
  if (0 <? currentPreviewIndex s)%Z
  then setPreviewFile
         (at_index (previewableFiles s) (currentPreviewIndex s - 1)) s
  else s.

Definition handleNextPreview (s : State) : State :=
  if (currentPreviewIndex s <? Z.of_nat (List.length (previewableFiles s)) - 1)%Z
  then setPreviewFile
         (at_index (previewableFiles s) (currentPreviewIndex s + 1)) s
  else s.

(** The [hasPrev] and [hasNext] props handed to the modal. *)
Definition hasPrev (s : State) : bool := (0 <? currentPreviewIndex s)%Z.

Definition hasNext (s : State) : bool :=
  (currentPreviewIndex s <? Z.of_nat (List.length (previewableFiles s)) - 1)%Z.

(** The [onClose] handed to the modal. *)
Definition closePreview (s : State) : State := setPreviewFile None s.

(** What the user can do to the preview from the browser and from the
    modal it opens. *)
Inductive PreviewEvent : Type :=
  | Open (obj : S3Object)
  | Prev
  | Next
  | Close
  | Reload (listing : list S3Object).

Definition preview_step (s : State) (e : PreviewEvent) : State :=
  match e with
  | Open obj => handlePreview obj s
  | Prev => handlePrevPreview s
  | Next => handleNextPreview s
  | Close => closePreview s
  | Reload listing => setObjects listing s
  end.

(** The file shown is one the modal can show. *)
Definition previewable_shown (s : State) : Prop :=
  forall f, previewFile s = Some f ->
            FileUtils.isPreviewable toLowerCase (name f) = true.

(** The modal as the browser renders it: [previewFile && <FilePreview
    storageId={storage.id} fileKey={previewFile.key}
    fileName={previewFile.name} ... />]. *)
Definition rendered_preview (storage : StorageInfo) (s : State)
  : list Preview.Widget :=
  match previewFile s with
  | Some file =>
      Preview.preview_content toLowerCase (id storage) (key file) (name file)
  | None => []
  end.

End WithToLowerCase.

(** Four objects of a listing: a folder, two pictures and an archive. *)
Definition listing : list S3Object :=
  [ {| key := "trip/"; name := "trip"; size := 0; lastModified := "";
       isDirectory := true |};
    {| key := "a.png"; name := "a.png"; size := 10; lastModified := "";
       isDirectory := false |};
    {| key := "b.zip"; name := "b.zip"; size := 20; lastModified := "";
       isDirectory := false |};
    {| key := "c.JPG"; name := "c.JPG"; size := 30; lastModified := "";
       isDirectory := false |} ].

(** A browser at [p] showing that listing, with [file] in the modal. *)
Definition browsing (p : string) (file : option S3Object) : State :=
  {| path := p; objects := listing; loading := false; error := "";
     uploadProgress := None; previewFile := file;
     showNewFolderInput := false; newFolderName := "";
     creatingFolder := false; showOfflineDownload := false;
     offlineUrl := ""; offlineFilename := "";
     offlineDownloading := false |}.

End Navigation.

(* ================================================================= *)
(** ** Media time and zoom

    The numbers of this part ([currentTime], [duration], [scale]) are
    taken at their exact value, as rationals; they are finite.  For the
    zoom this is what binary floating point computes, every value the
    scale takes being a multiple of 0.25 between 0.5 and 3. *)

Module Media.

Import QArith.QArith_base.
Import QArith.Qround.
Import QArith.Qminmax.

Local Open Scope Z_scope.

(** [Math.floor]. *)
Definition Math_floor (x : Q) : Z := Qfloor x.






(** *** The zoom of [ImageViewer] *)

Definition initial_scale : Q := 1%Q.

Definition zoomIn (s : Q) : Q := Qmin (s + 0.25)%Q 3%Q.

Definition zoomOut (s : Q) : Q := Qmax (s - 0.25)%Q 0.5%Q.

Definition resetZoom (_ : Q) : Q := 1%Q.

Inductive ZoomClick : Type := In_ | Out | Reset.

Definition zoom_step (s : Q) (c : ZoomClick) : Q :=
  match c with
  | In_ => zoomIn s
  | Out => zoomOut s
  | Reset => resetZoom s
  end.

(** [Math.round(scale * 100)], the percentage shown between the
    buttons. *)
Definition percent (s : Q) : Z := Math_floor (s * 100 + 0.5)%Q.

End Media.

(* ================================================================= *)
(** ** How the tables of the file utilities relate *)

Module Tables.

Import FileUtils.

(** Whether a MIME type is one a file of the given type may carry. *)
Definition mime_family (t : FileType) (mime : string) : bool :=
  match t with
  | video => JS.startsWith "video/" mime
  | audio => JS.startsWith "audio/" mime
  | image => JS.startsWith "image/" mime
  | text => JS.startsWith "text/" mime
  | code => orb (JS.startsWith "text/" mime)
                (String.eqb mime "application/json")
  | pdf => String.eqb mime "application/pdf"
  | unknown => false
  end.

(** The names an object literal answers to without having them. *)
Definition INHERITED : list string :=
  "__proto__" :: OBJECT_PROTOTYPE_FUNCTIONS.

(** Whether a value is a string with something in it. *)
Definition is_text (v : JsValue) : bool :=
  match v with
  | JsString s => JS.truthy s
  | _ => false
  end.

End Tables.

(* ================================================================= *)
(** ** Theme and announcement of the page *)

Module Appearance.

(** A web storage ([localStorage], [sessionStorage]). *)
Definition WebStorage : Type := string -> option string.

Definition getItem (store : WebStorage) (key : string) : option string :=
  store key.

Definition setItem (key value : string) (store : WebStorage) : WebStorage :=
  fun k => if String.eqb k key then Some value else store k.

(** A storage with nothing in it. *)
Definition empty_storage : WebStorage := fun _ => None.

(** What the mount effect and [toggleTheme] read and write: two state
    cells of [Home], whether the root element carries the class [dark],
    and the two storages. *)
Record Page : Type := mkPage {
  isDark : bool;
  showAnnouncement : bool;
  dark_class : bool;
  localStorage : WebStorage;
  sessionStorage : WebStorage
}.

(** [saved === "light"]. *)
Definition is_light (saved : option string) : bool :=
  match saved with
  | Some s => String.eqb s "light"
  | None => false
  end.

(** [!announcementShown]. *)
Definition not_shown (flag : option string) : bool :=
  match flag with
  | Some s => negb (JS.truthy s)
  | None => true
  end.

(** The effect [Home] runs when it mounts. *)
Definition mount_effect (siteAnnouncement : string) (p : Page) : Page :=
  let saved := getItem (localStorage p) "theme" in
  let p :=
    if is_light saved
    then mkPage false (showAnnouncement p) false
           (localStorage p) (sessionStorage p)
    else mkPage (isDark p) (showAnnouncement p) true
           (localStorage p) (sessionStorage p) in
  if JS.truthy siteAnnouncement
  then
    let announcementShown := getItem (sessionStorage p) "announcement_shown" in
    if not_shown announcementShown
    then mkPage (isDark p) true (dark_class p) (localStorage p)
           (setItem "announcement_shown" "true" (sessionStorage p))
    else p
  else p.

(** [toggleTheme]; with or without a view transition, [changeTheme] runs
    once. *)
Definition toggleTheme (p : Page) : Page :=
  let newIsDark := negb (isDark p) in
  mkPage newIsDark (showAnnouncement p) newIsDark
    (setItem "theme" (if newIsDark then "dark" else "light") (localStorage p))
    (sessionStorage p).

(** The page as a document load creates it, before the effect: the state
    cells have their initial values, the storages are those of the
    browser. *)
Definition loaded (dark_in_html : bool) (local session : WebStorage) : Page :=
  mkPage true false dark_in_html local session.

(** Loading the page again in the same tab. *)
Definition reload (dark_in_html : bool) (siteAnnouncement : string) (p : Page)
  : Page :=
  mount_effect siteAnnouncement
    (loaded dark_in_html (localStorage p) (sessionStorage p)).

(** Whether the announcement modal is on the page:
    [showAnnouncement && siteAnnouncement]. *)
Definition announcement_rendered (siteAnnouncement : string) (p : Page) : bool :=
  andb (showAnnouncement p) (JS.truthy siteAnnouncement).

End Appearance.

(* ================================================================= *)
(** ** The text viewer ([TextViewer]) *)

Module TextViewer.

Record State : Type := mkState {
  content : string;
  loading : bool;
  error : string
}.

Definition setContent (v : string) (s : State) : State :=
  mkState v (loading s) (error s).

Definition setLoading (v : bool) (s : State) : State :=
  mkState (content s) v (error s).

Definition setError (v : string) (s : State) : State :=
  mkState (content s) (loading s) v.

(** The state of a viewer that has just been mounted. *)
Definition mounted : State :=
  {| content := ""; loading := true; error := "" |}.

(** What a [catch] clause receives: an [Error] with its message, or
    something that is not an [Error]. *)
Inductive Thrown : Type :=
  | ErrorWith (message : string)
  | NotAnError.

(** How [fetch(url)] and [res.text()] go: [fetch] throws, or a response
    arrives with its [ok] flag, whose text is then read or fails to be. *)
Inductive Fetched : Type :=
  | FetchThrew (thrown : Thrown)
  | Answered (ok : bool) (text : Thrown + string).

(** [err instanceof Error ? err.message : "Failed to load file"]. *)
Definition message_of (thrown : Thrown) : string :=
  match thrown with
  | ErrorWith message => message
  | NotAnError => "Failed to load file"
  end.

Definition fetchContent (r : Fetched) (s : State) : State :=
  let s := setLoading true s in
  let s :=
    match r with
    | FetchThrew thrown => setError (message_of thrown) s
    | Answered false _ => setError "Failed to fetch file" s
    | Answered true (inl thrown) => setError (message_of thrown) s
    | Answered true (inr text) => setContent text s
    end in
  setLoading false s.

(** The three things the component can return. *)
Inductive View : Type :=
  | Spinner
  | ErrorView (message : string)
  | ContentView (text : string).

Definition render (s : State) : View :=
  if loading s then Spinner
  else if JS.truthy (error s) then ErrorView (error s)
  else ContentView (content s).

End TextViewer.

(** *** A deployment whose session store is down *)

Module Outage.

Import Loader.

Definition failing_requireAuth (_ : bool) : Async (D1 unit) AuthResult :=
  fun db => Rejected "session store unavailable" db.

End Outage.

(* ================================================================= *)
(** * Properties *)

(** ** Strings and arrays *)

Lemma split_nonempty (sep : ascii) (s : string) : JS.split sep s <> [].
Proof.
  destruct s as [|c rest]; simpl; [discriminate|].
  destruct (Ascii.eqb c sep); [discriminate|].
  destruct (JS.split sep rest); discriminate.
Qed.

(** A string without the separator is a single part. *)
Lemma split_without_separator (sep : ascii) (s : string) :
  JS.contains sep s = false -> JS.split sep s = [s].
Proof.
  induction s as [|c rest IH]; simpl; intros H; [reflexivity|].
  apply orb_false_iff in H. destruct H as [Hc Hrest].
  rewrite Hc, (IH Hrest). reflexivity.
Qed.

(** With a separator in it, a string splits in two parts at least. *)
Lemma split_with_separator (sep : ascii) (s : string) :
  JS.contains sep s = true -> (1 < List.length (JS.split sep s))%nat.
Proof.
  induction s as [|c rest IH]; simpl; intros H; [discriminate|].
  destruct (Ascii.eqb c sep) eqn:Hc; simpl in *.
  - pose proof (split_nonempty sep rest) as Hne.
    destruct (JS.split sep rest); [congruence|simpl; lia].
  - specialize (IH H).
    destruct (JS.split sep rest); simpl in *; lia.
Qed.

Lemma after_last_dot_None (s : string) :
  FileUtils.after_last_dot s = None <-> JS.contains "." s = false.
Proof.
  induction s as [|c rest IH]; simpl; [tauto|].
  destruct (FileUtils.after_last_dot rest) as [tail|].
  - split; [discriminate|]. intros H. apply orb_false_iff in H.
    destruct H as [_ H]. apply IH in H. discriminate.
  - destruct (Ascii.eqb c "."); simpl.
    + split; discriminate.
    + split; intros _; [now apply IH | reflexivity].
Qed.

(** A character put in front of a string that has a separator does not
    change the last part. *)
Lemma last_of_split_cons (sep c : ascii) (rest d : string) :
  JS.contains sep rest = true ->
  last (JS.split sep (String c rest)) d = last (JS.split sep rest) d.
Proof.
  intros H. apply split_with_separator in H. simpl JS.split.
  destruct (Ascii.eqb c sep), (JS.split sep rest) as [|p [|q qs]];
    simpl in H; try lia; reflexivity.
Qed.

(** The last part of a split is what follows the last separator. *)
Lemma last_of_split (s : string) (tail : string) :
  FileUtils.after_last_dot s = Some tail ->
  last (JS.split "." s) EmptyString = tail.
Proof.
  revert tail. induction s as [|c rest IH]; intros tail H; [discriminate|].
  simpl in H.
  destruct (FileUtils.after_last_dot rest) as [t|] eqn:Ht.
  - injection H as <-. rewrite last_of_split_cons; [now apply IH|].
    destruct (JS.contains "." rest) eqn:E; [reflexivity|].
    apply after_last_dot_None in E. congruence.
  - destruct (Ascii.eqb c ".") eqn:Hc; [|discriminate]. injection H as <-.
    apply after_last_dot_None in Ht. simpl JS.split. rewrite Hc.
    rewrite (split_without_separator _ _ Ht). reflexivity.
Qed.

Lemma nth_last {A : Type} (l : list A) (d : A) :
  nth (List.length l - 1) l d = last l d.
Proof.
  induction l as [|a [|b l'] IH]; try reflexivity.
  change (last (a :: b :: l') d) with (last (b :: l') d).
  rewrite <- IH. simpl. rewrite Nat.sub_0_r. reflexivity.
Qed.

(** A string with a dot in it is [a.b] for some [b] without a dot. *)
Lemma after_last_dot_Some (s tail : string) :
  FileUtils.after_last_dot s = Some tail ->
  JS.contains "." tail = false /\ exists a, s = a ++ String "." tail.
Proof.
  revert tail. induction s as [|c rest IH]; simpl; intros tail H; [discriminate|].
  destruct (FileUtils.after_last_dot rest) as [t|] eqn:Ht.
  - injection H as <-. destruct (IH t eq_refl) as [Hno [a Ha]].
    split; [exact Hno|]. exists (String c a). simpl. now rewrite Ha.
  - destruct (Ascii.eqb c ".") eqn:Hc; [|discriminate]. injection H as <-.
    apply Ascii.eqb_eq in Hc. subst c.
    split; [now apply after_last_dot_None|]. now exists EmptyString.
Qed.

(** ** File type detection *)

Section FileUtilsFacts.

Import FileUtils.

Variable toLowerCase : string -> string.

(** The extension is what follows the last dot of the lowercased name, and
    empty when that name has no dot. *)
Lemma getFileExtension_after_last_dot (filename : string) :
  getFileExtension toLowerCase filename =
  match after_last_dot (toLowerCase filename) with
  | Some tail => tail
  | None => EmptyString
  end.
Proof.
  unfold FileUtils.getFileExtension. cbv zeta.
  destruct (after_last_dot (toLowerCase filename)) as [tail|] eqn:H.
  - assert (Hdot : JS.contains "." (toLowerCase filename) = true).
    { destruct (JS.contains "." (toLowerCase filename)) eqn:E; [reflexivity|].
      apply after_last_dot_None in E. congruence. }
    apply split_with_separator in Hdot.
    apply Nat.ltb_lt in Hdot. rewrite Hdot.
    rewrite nth_last. now apply last_of_split.
  - apply after_last_dot_None in H.
    rewrite (split_without_separator _ _ H). reflexivity.
Qed.

Lemma getFileType_first_listing (filename : string) :
  getFileType toLowerCase filename =
  first_listing LISTS_IN_ORDER (getFileExtension toLowerCase filename).
Proof. reflexivity. Qed.

Lemma label_in_LABELS (t : FileType) : In (label t) LABELS.
Proof. destruct t; simpl; tauto. Qed.

Lemma label_injective (t u : FileType) : label t = label u -> t = u.
Proof. destruct t, u; simpl; intros H; try reflexivity; discriminate. Qed.

Lemma includes_In (arr : list string) (x : string) :
  JS.includes arr x = true <-> In x arr.
Proof.
  unfold JS.includes. rewrite existsb_exists. split.
  - intros [y [Hy Heq]]. apply String.eqb_eq in Heq. now subst.
  - intros H. exists x. split; [exact H|apply String.eqb_refl].
Qed.

(** [first_listing] returns the label of a list containing the extension,
    no earlier list containing it; or [unknown], no list containing it. *)
Lemma first_listing_spec (lists : list (list string * FileType)) (ext : string) :
  (exists before extensions type after,
      lists = (before ++ (extensions, type) :: after)%list /\
      In ext extensions /\
      Forall (fun entry => ~ In ext (fst entry)) before /\
      first_listing lists ext = type)
  \/
  (Forall (fun entry => ~ In ext (fst entry)) lists /\
   first_listing lists ext = unknown).
Proof.
  induction lists as [|[extensions type] rest IH]; simpl.
  - right. split; [constructor|reflexivity].
  - destruct (JS.includes extensions ext) eqn:Hin.
    + left. exists [], extensions, type, rest.
      repeat split; [now apply includes_In | constructor].
    + assert (Hnot : ~ In ext extensions).
      { intros H. apply includes_In in H. congruence. }
      destruct IH as [(before & exts & ty & after & -> & Hext & Hbefore & Hres)
                     | [Hall Hres]].
      * left. exists ((extensions, type) :: before), exts, ty, after.
        repeat split; auto.
      * right. split; [constructor; auto | exact Hres].
Qed.

(** C3. For every filename, [getFileType] returns exactly one of the seven
    labels: the label of the first list, in the order video, audio, image,
    pdf, code, text, that contains the filename's extension, and [unknown]
    when no list contains it.  An extension found in several lists, such
    as [webm] or [ogg], is therefore a video. *)
Theorem getFileType_first_match_in_order (filename : string) :
  let ext := getFileExtension toLowerCase filename in
  let type := getFileType toLowerCase filename in
  (In (label type) LABELS /\
   forall other, label other = label type -> other = type) /\
  type = first_listing LISTS_IN_ORDER ext /\
  ((exists before extensions after,
       LISTS_IN_ORDER = (before ++ (extensions, type) :: after)%list /\
       In ext extensions /\
       Forall (fun entry => ~ In ext (fst entry)) before)
   \/
   (type = unknown /\
    Forall (fun entry => ~ In ext (fst entry)) LISTS_IN_ORDER)) /\
  (In ext ["webm"; "ogg"] ->
   In ext VIDEO_EXTENSIONS /\ In ext AUDIO_EXTENSIONS /\ type = video).
Proof.
  intros ext type. repeat split.
  - apply label_in_LABELS.
  - intros other H. now apply label_injective.
  - destruct (first_listing_spec LISTS_IN_ORDER ext)
      as [(before & exts & ty & after & Hsplit & Hext & Hbefore & Hres)
         | [Hall Hres]].
    + left. exists before, exts, after.
      unfold type. rewrite getFileType_first_listing. fold ext.
      rewrite Hres. auto.
    + right. split; [exact Hres | exact Hall].
  - destruct H as [<- | [<- | []]]; simpl; tauto.
  - destruct H as [<- | [<- | []]]; simpl; tauto.
  - unfold type, FileUtils.getFileType. fold ext.
    destruct H as [<- | [<- | []]]; reflexivity.
Qed.

(** C4. Two filenames with the same extension get the same type, the same
    MIME type and the same code language: each of the three functions
    depends on the filename through [getFileExtension] only. *)
Theorem file_utils_factor_through_extension (f1 f2 : string) :
  getFileExtension toLowerCase f1 = getFileExtension toLowerCase f2 ->
  getFileType toLowerCase f1 = getFileType toLowerCase f2 /\
  getMimeType toLowerCase f1 = getMimeType toLowerCase f2 /\
  getCodeLanguage toLowerCase f1 = getCodeLanguage toLowerCase f2.
Proof.
  intros H.
  unfold FileUtils.getFileType, FileUtils.getMimeType,
    FileUtils.getCodeLanguage.
  rewrite H. repeat split.
Qed.

(** C8. A file can be previewed if and only if its type is not [unknown],
    and the modal shows the "cannot preview" fallback exactly when the
    type is [unknown]. *)
Theorem previewable_iff_recognised
  (storageId : Z) (fileKey filename : string) :
  (isPreviewable toLowerCase filename = true <->
   getFileType toLowerCase filename <> unknown) /\
  (existsb Preview.is_CannotPreview
     (Preview.preview_content toLowerCase storageId fileKey filename) = true <->
   getFileType toLowerCase filename = unknown).
Proof.
  unfold FileUtils.isPreviewable, Preview.preview_content. cbv zeta.
  destruct (getFileType toLowerCase filename); simpl;
    split; split; intros H; congruence.
Qed.

Section LowerCaseOnAscii.

(** Two facts about [toLowerCase]: it neither adds nor removes dots, and on
    ASCII names it is the usual shift of the capital letters. *)
Hypothesis toLowerCase_dots :
  forall s, JS.contains "." (toLowerCase s) = JS.contains "." s.
Hypothesis toLowerCase_ascii :
  forall s, JS.is_ascii s = true -> toLowerCase s = JS.ascii_toLowerCase s.

(** C9. A filename without a dot has the empty extension, and any other
    filename has as extension what follows the last dot of its lowercased
    form.  Names without extension, such as [dockerfile] or [makefile], are
    therefore [unknown], although both words are in [CODE_EXTENSIONS]; only
    names like [x.dockerfile] reach those entries. *)
Theorem extensionless_names_are_unknown :
  (forall filename,
      JS.contains "." filename = false ->
      getFileExtension toLowerCase filename = EmptyString /\
      getFileType toLowerCase filename = unknown) /\
  (forall filename,
      JS.contains "." filename = true ->
      exists stem ext,
        toLowerCase filename = stem ++ String "." ext /\
        JS.contains "." ext = false /\
        getFileExtension toLowerCase filename = ext) /\
  (In "dockerfile" CODE_EXTENSIONS /\ In "makefile" CODE_EXTENSIONS /\
   getFileType toLowerCase "dockerfile" = unknown /\
   getFileType toLowerCase "makefile" = unknown /\
   getFileType toLowerCase "x.dockerfile" = code /\
   getFileType toLowerCase "x.makefile" = code).
Proof.
  assert (Hnodot : forall filename,
             JS.contains "." filename = false ->
             getFileExtension toLowerCase filename = EmptyString).
  { intros filename H. rewrite getFileExtension_after_last_dot.
    rewrite <- toLowerCase_dots in H. apply after_last_dot_None in H.
    now rewrite H. }
  assert (Hunknown : forall filename,
             JS.contains "." filename = false ->
             getFileType toLowerCase filename = unknown).
  { intros filename H. unfold FileUtils.getFileType.
    rewrite (Hnodot _ H). reflexivity. }
  split; [|split].
  - intros filename H. split; auto.
  - intros filename H. rewrite <- toLowerCase_dots in H.
    rewrite getFileExtension_after_last_dot.
    destruct (after_last_dot (toLowerCase filename)) as [tail|] eqn:E.
    + destruct (after_last_dot_Some _ _ E) as [Hno [stem Hstem]].
      exists stem, tail. auto.
    + apply after_last_dot_None in E. congruence.
  - repeat split.
    + simpl; tauto.
    + simpl; tauto.
    + now apply Hunknown.
    + now apply Hunknown.
    + unfold FileUtils.getFileType, FileUtils.getFileExtension.
      rewrite toLowerCase_ascii by reflexivity. reflexivity.
    + unfold FileUtils.getFileType, FileUtils.getFileExtension.
      rewrite toLowerCase_ascii by reflexivity. reflexivity.
Qed.

End LowerCaseOnAscii.

End FileUtilsFacts.

(** [ascii_toLowerCase] has the two properties asked of [toLowerCase]. *)
Lemma lower_ascii_dot (c : ascii) :
  Ascii.eqb (JS.lower_ascii c) "." = Ascii.eqb c ".".
Proof.
  destruct c as [[] [] [] [] [] [] [] []]; reflexivity.
Qed.

Lemma ascii_toLowerCase_dots (s : string) :
  JS.contains "." (JS.ascii_toLowerCase s) = JS.contains "." s.
Proof.
  induction s as [|c rest IH]; simpl; [reflexivity|].
  now rewrite lower_ascii_dot, IH.
Qed.

Lemma getFileType_first_match_in_order_witness :
  In (FileUtils.getFileExtension JS.ascii_toLowerCase "Clip.WebM")
    ["webm"; "ogg"] /\
  FileUtils.getFileType JS.ascii_toLowerCase "Clip.WebM" = FileUtils.video.
Proof.
  split; [simpl; tauto|].
  apply (getFileType_first_match_in_order JS.ascii_toLowerCase "Clip.WebM").
  simpl; tauto.
Defined.

Lemma file_utils_factor_through_extension_witness :
  FileUtils.getFileExtension JS.ascii_toLowerCase "Holiday.MP4" =
  FileUtils.getFileExtension JS.ascii_toLowerCase "talks/intro.mp4" /\
  FileUtils.getMimeType JS.ascii_toLowerCase "Holiday.MP4" =
  FileUtils.getMimeType JS.ascii_toLowerCase "talks/intro.mp4".
Proof.
  split; [reflexivity|].
  apply (file_utils_factor_through_extension JS.ascii_toLowerCase
           "Holiday.MP4" "talks/intro.mp4").
  reflexivity.
Defined.

Lemma extensionless_names_are_unknown_witness :
  JS.contains "." "Makefile" = false /\
  FileUtils.getFileType JS.ascii_toLowerCase "Makefile" = FileUtils.unknown /\
  FileUtils.getFileType JS.ascii_toLowerCase "x.dockerfile" = FileUtils.code.
Proof.
  pose proof (extensionless_names_are_unknown JS.ascii_toLowerCase
                ascii_toLowerCase_dots (fun s _ => eq_refl)) as H.
  split; [reflexivity|]. split.
  - apply (proj1 H "Makefile"). reflexivity.
  - apply (proj2 (proj2 H)).
Defined.

(** ** [formatBytes] *)

Section FormatFacts.

Import Format.

Open Scope Z_scope.



(** From one pebibyte on it falls outside. *)
Lemma no_unit_from_one_pebibyte (bytes : Z) :
  k ^ 5 <= bytes -> unit_of bytes = None.
Proof.
  intros Hge.
  assert (Hlog : 50 <= Z.log2 bytes).
  { change 50 with (Z.log2 (k ^ 5)). now apply Z.log2_le_mono. }
  unfold unit_of, unit_index, sizes_at. change (Z.log2 k) with 10.
  assert (Hi : 5 <= Z.log2 bytes / 10).
  { apply Z.div_le_lower_bound; lia. }
  set (i := Z.log2 bytes / 10) in *.
  destruct (i <? 0) eqn:Hneg; [reflexivity|].
  apply nth_error_None. simpl. lia.
Qed.

(** C10. [formatBytes] answers ["-"] for an empty object, but a size of two
    pebibytes, whose index is 5, is printed without any of the five units:
    the sixth element of [sizes] does not exist. *)
Theorem formatBytes_two_pebibytes_has_no_unit :
  formatBytes 0 = "-"%string /\
  unit_index 2251799813685248 = 5 /\
  sizes_at 5 = None /\
  unit_of 2251799813685248 = None /\
  formatBytes 2251799813685248 = "2 undefined"%string.
Proof. repeat split; reflexivity. Qed.

End FormatFacts.

(** ** The loader *)

Section LoaderFacts.

Import Loader.

Variables Request Db : Type.
Variable initDatabase : Async Db unit.
Variable requireAuth : Request -> Async Db AuthResult.
Variable getAllStorages : Async Db (list Storage).
Variable getPublicStorages : Async Db (list Storage).

(** C1, amended. When the database is bound and the awaited calls are
    fulfilled, the loader returns the views of all the storages of
    [getAllStorages] if [requireAuth] reports an administrator, and the
    views of the storages of [getPublicStorages] if it does not, with the
    reported flag; when the database is not bound it returns no storage and
    [isAdmin = false]. *)
Theorem loader_admin_gated_when_bound (request : Request) (env : Env Db) :
  let run := loader Request Db initDatabase requireAuth
               getAllStorages getPublicStorages request env in
  let title := JS.or_default (SITE_TITLE env) "CList" in
  let announcement := JS.or_default (SITE_ANNOUNCEMENT env) "" in
  (forall db u db1 auth db2,
      DB env = Some db ->
      initDatabase db = Fulfilled u db1 ->
      requireAuth request db1 = Fulfilled auth db2 ->
      (auth_isAdmin auth = true ->
       forall all db3,
         getAllStorages db2 = Fulfilled all db3 ->
         snd run = Fulfilled {| isAdmin := true;
                                siteTitle := title;
                                siteAnnouncement := announcement;
                                storages := map to_view all |} (Some db3))
      /\
      (auth_isAdmin auth = false ->
       forall pub db3,
         getPublicStorages db2 = Fulfilled pub db3 ->
         snd run = Fulfilled {| isAdmin := false;
                                siteTitle := title;
                                siteAnnouncement := announcement;
                                storages := map to_view pub |} (Some db3)))
  /\
  (DB env = None ->
   snd run = Fulfilled {| isAdmin := false;
                          siteTitle := title;
                          siteAnnouncement := announcement;
                          storages := [] |} None).
Proof.
  intros run title announcement. subst run. unfold loader. split.
  - intros db u db1 auth db2 Hdb Hinit Hauth. rewrite Hdb. cbv zeta.
    unfold loader_with_db, await, snd.
    rewrite Hinit, Hauth.
    split; intros Hadmin l db3 Hquery; rewrite Hadmin, Hquery; reflexivity.
  - intros Hdb. rewrite Hdb. reflexivity.
Qed.

End LoaderFacts.

(** C1, as stated, fails on a worker started without its database binding:
    the database of the deployment holds a public storage, the loader
    returns none. *)
Lemma loader_unbound_database_not_gated :
  ~ Loader.gated_on_every_run unit unit
      Loader.fixed_initDatabase Loader.fixed_requireAuth
      Loader.fixed_getAllStorages Loader.fixed_getPublicStorages
      tt Loader.unbound_env.
Proof.
  intros (data & st & Hrun & Hcases).
  simpl in Hrun. injection Hrun as <- _.
  destruct Hcases as [(db & db1 & db2 & auth & all & Hauth & Hadmin & _)
                     | (db & db1 & pub & Hpub & Hview)].
  - injection Hauth as <- _. discriminate.
  - injection Hpub as <- _. discriminate.
Qed.

Lemma loader_admin_gated_when_bound_witness :
  (* an administrator sees both storages *)
  snd (Loader.demo_loader true
         (Loader.demo_env (Some (Loader.demo_db "k1" "k2")))) =
  Loader.Fulfilled
    {| Loader.isAdmin := true;
       Loader.siteTitle := "CList";
       Loader.siteAnnouncement := "";
       Loader.storages :=
         map Loader.to_view [Loader.r2_media "k1"; Loader.s3_backup "k2"] |}
    (Some (Loader.demo_db "k1" "k2")) /\
  (* a visitor sees the public one *)
  snd (Loader.demo_loader false
         (Loader.demo_env (Some (Loader.demo_db "k1" "k2")))) =
  Loader.Fulfilled
    {| Loader.isAdmin := false;
       Loader.siteTitle := "CList";
       Loader.siteAnnouncement := "";
       Loader.storages := map Loader.to_view [Loader.r2_media "k1"] |}
    (Some (Loader.demo_db "k1" "k2")) /\
  (* without the binding nobody sees any *)
  snd (Loader.demo_loader true (Loader.demo_env None)) =
  Loader.Fulfilled
    {| Loader.isAdmin := false;
       Loader.siteTitle := "CList";
       Loader.siteAnnouncement := "";
       Loader.storages := [] |}
    None.
Proof.
  pose (db := Loader.demo_db "k1" "k2").
  pose (gated := fun session env =>
    loader_admin_gated_when_bound bool (Loader.D1 unit)
      Loader.demo_initDatabase Loader.demo_requireAuth
      Loader.demo_getAllStorages Loader.demo_getPublicStorages
      session env).
  split; [|split].
  - apply (proj1 (proj1 (gated true (Loader.demo_env (Some db)))
                    db tt db {| Loader.auth_isAdmin := true |} db
                    eq_refl eq_refl eq_refl)
             eq_refl).
    reflexivity.
  - apply (proj2 (proj1 (gated false (Loader.demo_env (Some db)))
                    db tt db {| Loader.auth_isAdmin := false |} db
                    eq_refl eq_refl eq_refl)
             eq_refl).
    reflexivity.
  - apply (proj2 (gated true (Loader.demo_env None))).
    reflexivity.
Defined.

(** *** Secret keys do not reach the client *)

(** The view of a storage carries every field but the secret key, and
    nothing else: two rows have the same view exactly when they agree on
    all the other fields. *)
Lemma to_view_same_but_secret (a b : Loader.Storage) :
  Loader.to_view a = Loader.to_view b <-> Loader.same_but_secret a b.
Proof.
  unfold Loader.to_view, Loader.same_but_secret. split.
  - intros H. injection H as H1 H2 H3 H4 H5 H6 H7 H8. tauto.
  - intros (H1 & H2 & H3 & H4 & H5 & H6 & H7 & H8).
    now rewrite H1, H2, H3, H4, H5, H6, H7, H8.
Qed.

Lemma views_same_but_secret (l1 l2 : list Loader.Storage) :
  Forall2 Loader.same_but_secret l1 l2 ->
  map Loader.to_view l1 = map Loader.to_view l2.
Proof.
  induction 1 as [|a b l1 l2 Hab _ IH]; simpl; [reflexivity|].
  apply to_view_same_but_secret in Hab. now rewrite Hab, IH.
Qed.

Section Noninterference.

Import Loader.

Variables Request Other : Type.
Variable initDatabase : Async (D1 Other) unit.
Variable requireAuth : Request -> Async (D1 Other) AuthResult.
Variable getAllStorages : Async (D1 Other) (list Storage).
Variable getPublicStorages : Async (D1 Other) (list Storage).

(** Awaiting a secret-independent computation and continuing alike. *)
Lemma await_alike {A B : Type} (R : A -> A -> Prop) (R' : B -> B -> Prop)
  (m : Async (D1 Other) A) (f1 f2 : A -> Async (D1 Other) B) :
  secret_independent R m ->
  (forall a1 a2 d1 d2,
      R a1 a2 -> differ_only_in_secrets d1 d2 ->
      alike R' (f1 a1 d1) (f2 a2 d2)) ->
  forall d1 d2,
    differ_only_in_secrets d1 d2 ->
    alike R' (await m f1 d1) (await m f2 d2).
Proof.
  intros Hm Hf d1 d2 Hd. unfold await.
  specialize (Hm d1 d2 Hd). unfold alike in Hm.
  destruct (m d1) as [a1 e1|r1 e1], (m d2) as [a2 e2|r2 e2];
    try contradiction; destruct Hm as [Hval Hdb].
  - now apply Hf.
  - simpl. auto.
Qed.

(** Two settlements that are alike up to equality show the same to the
    client. *)
Lemma alike_client_sees {A : Type} (r1 r2 : Settled (D1 Other) A) :
  alike eq r1 r2 -> client_sees (with_db r1) = client_sees (with_db r2).
Proof.
  destruct r1, r2; simpl; try contradiction; intros [-> _]; reflexivity.
Qed.

(** The collaborators do not let secret keys influence anything else. *)
Hypothesis initDatabase_independent : secret_independent eq initDatabase.
Hypothesis requireAuth_independent :
  forall request, secret_independent eq (requireAuth request).
Hypothesis getAllStorages_independent :
  secret_independent (Forall2 same_but_secret) getAllStorages.
Hypothesis getPublicStorages_independent :
  secret_independent (Forall2 same_but_secret) getPublicStorages.

(** C2. On two database states that differ only in secret keys, the loader
    hands the same data to the client (and writes the same lines to the
    console): the storages it returns carry the id, name, endpoint, region,
    access key id, bucket, base path and public flag of each row, and
    nothing that depends on the secret key; two rows get the same view
    exactly when they agree on those eight fields. *)
Theorem loader_hides_secret_keys
  (request : Request) (title announcement : option string)
  (d1 d2 : D1 Other) :
  differ_only_in_secrets d1 d2 ->
  let env d := {| DB := Some d;
                  SITE_TITLE := title;
                  SITE_ANNOUNCEMENT := announcement |} in
  let run d := loader Request (D1 Other) initDatabase requireAuth
                 getAllStorages getPublicStorages request (env d) in
  client_sees (snd (run d1)) = client_sees (snd (run d2)) /\
  fst (run d1) = fst (run d2) /\
  (forall a b, to_view a = to_view b <-> same_but_secret a b).
Proof.
  intros Hd env run.
  split; [|split; [reflexivity|exact to_view_same_but_secret]].
  unfold run, loader, env. simpl.
  apply alike_client_sees.
  unfold loader_with_db.
  apply await_alike with (R := eq); [exact initDatabase_independent| |exact Hd].
  intros _ _ e1 e2 _ He.
  apply await_alike with (R := eq); [apply requireAuth_independent| |exact He].
  intros auth _ g1 g2 <- Hg.
  apply await_alike with (R := Forall2 same_but_secret); [| |exact Hg].
  - destruct (auth_isAdmin auth);
      [exact getAllStorages_independent|exact getPublicStorages_independent].
  - intros l1 l2 h1 h2 Hl Hh. unfold resolve, alike.
    rewrite (views_same_but_secret _ _ Hl). auto.
Qed.

End Noninterference.

(** The collaborators of the concrete deployment are secret-independent. *)
Lemma resolve_independent {Other A : Type} (a : A) :
  Loader.secret_independent (Other := Other) eq (Loader.resolve a).
Proof. intros d1 d2 Hd. simpl. auto. Qed.

Lemma demo_getAllStorages_independent :
  Loader.secret_independent (Forall2 Loader.same_but_secret)
    Loader.demo_getAllStorages.
Proof. intros d1 d2 Hd. simpl. split; [apply Hd|exact Hd]. Qed.

Lemma demo_getPublicStorages_independent :
  Loader.secret_independent (Forall2 Loader.same_but_secret)
    Loader.demo_getPublicStorages.
Proof.
  intros d1 d2 Hd. simpl. split; [|exact Hd].
  destruct Hd as [Hrows _].
  induction Hrows as [|a b l1 l2 Hab _ IH]; simpl; [constructor|].
  assert (Hpub : Loader.isPublic a = Loader.isPublic b) by apply Hab.
  rewrite Hpub. destruct (Loader.isPublic b); [constructor|]; assumption.
Qed.

Lemma demo_db_differ_only_in_secrets (a1 a2 b1 b2 : string) :
  Loader.differ_only_in_secrets (Loader.demo_db a1 a2) (Loader.demo_db b1 b2).
Proof.
  split; [|reflexivity].
  repeat constructor.
Qed.

Lemma loader_hides_secret_keys_witness :
  Loader.differ_only_in_secrets
    (Loader.demo_db "k1" "k2") (Loader.demo_db "rotated" "keys") /\
  Loader.client_sees
    (snd (Loader.demo_loader true
            (Loader.demo_env (Some (Loader.demo_db "k1" "k2"))))) =
  Loader.client_sees
    (snd (Loader.demo_loader true
            (Loader.demo_env (Some (Loader.demo_db "rotated" "keys"))))).
Proof.
  split; [apply demo_db_differ_only_in_secrets|].
  refine (proj1 (loader_hides_secret_keys bool unit
           Loader.demo_initDatabase Loader.demo_requireAuth
           Loader.demo_getAllStorages Loader.demo_getPublicStorages
           (resolve_independent tt)
           (fun session => resolve_independent _)
           demo_getAllStorages_independent
           demo_getPublicStorages_independent
           true None (Some EmptyString)
           (Loader.demo_db "k1" "k2") (Loader.demo_db "rotated" "keys")
           (demo_db_differ_only_in_secrets _ _ _ _))).
Defined.

(** ** Paths and breadcrumbs *)

Lemma append_empty_r (s : string) : s ++ EmptyString = s.
Proof. induction s as [|c s IH]; simpl; [reflexivity|now rewrite IH]. Qed.

Lemma append_assoc (a b c : string) : (a ++ b) ++ c = a ++ (b ++ c).
Proof. induction a as [|x a IH]; simpl; [reflexivity|now rewrite IH]. Qed.

(** Splitting on ['/'] and dropping the empty parts reads the segments of
    a path; [current] is what precedes the string within its first part. *)
Lemma filter_split_segments_from (current s : string) :
  filter JS.truthy
    (match JS.split "/" s with
     | [] => [current]
     | part :: parts => (current ++ part) :: parts
     end) = Browser.segments_from current s.
Proof.
  revert current. induction s as [|c rest IH]; intros current.
  - simpl. rewrite append_empty_r. reflexivity.
  - simpl JS.split. simpl Browser.segments_from.
    pose proof (split_nonempty "/" rest) as Hne.
    destruct (Ascii.eqb c "/").
    + rewrite append_empty_r. rewrite <- (IH EmptyString).
      destruct (JS.split "/" rest) as [|p ps]; [congruence|].
      simpl. destruct (JS.truthy current); reflexivity.
    + rewrite <- IH.
      destruct (JS.split "/" rest) as [|p ps]; [congruence|].
      rewrite append_assoc. reflexivity.
Qed.

Lemma filter_split_segments (p : string) :
  filter JS.truthy (JS.split "/" p) = Browser.segments p.
Proof.
  unfold Browser.segments. rewrite <- filter_split_segments_from.
  pose proof (split_nonempty "/" p) as Hne.
  destruct (JS.split "/" p); [congruence|reflexivity].
Qed.

Lemma goUp_path (st : Browser.State) :
  Browser.goUp st =
    Browser.setPath
      (JS.join "/" (removelast (Browser.segments (Browser.path st)))) st.
Proof.
  unfold Browser.goUp, JS.pop. cbv zeta.
  now rewrite filter_split_segments.
Qed.

(** C7. [goUp] sets the path to its non-empty segments without the last
    one, joined by ['/'], and touches nothing else; from the root the path
    stays empty; the breadcrumbs are the non-empty segments of the path. *)
Theorem goUp_removes_last_segment (st : Browser.State) :
  Browser.goUp st =
    Browser.setPath
      (JS.join "/" (removelast (Browser.segments (Browser.path st)))) st /\
  Browser.path (Browser.goUp (Browser.setPath EmptyString st)) = EmptyString /\
  Browser.breadcrumbs st = Browser.segments (Browser.path st).
Proof.
  repeat split.
  - apply goUp_path.
  - unfold Browser.breadcrumbs. rewrite filter_split_segments.
    destruct (Browser.path st); reflexivity.
Qed.

(** Reading the segments of a prefix without slash only extends the
    current segment. *)
Lemma segments_from_app (current p s : string) :
  JS.contains "/" p = false ->
  Browser.segments_from current (p ++ s) =
  Browser.segments_from (current ++ p) s.
Proof.
  revert current. induction p as [|c p IH]; simpl; intros current H.
  - now rewrite append_empty_r.
  - apply orb_false_iff in H. destruct H as [Hc Hp].
    rewrite Hc, (IH _ Hp), append_assoc. reflexivity.
Qed.

(** Segments that are non-empty and without slash are read back from
    their join. *)
Lemma segments_of_join (segs : list string) :
  Forall (fun s => JS.truthy s = true /\ JS.contains "/" s = false) segs ->
  Browser.segments (JS.join "/" segs) = segs.
Proof.
  unfold Browser.segments.
  induction 1 as [|p rest [Hp Hslash] Hrest IH]; [reflexivity|].
  destruct rest as [|q rest'].
  - simpl JS.join. rewrite <- (append_empty_r p) at 1.
    rewrite (segments_from_app _ _ _ Hslash). simpl. now rewrite Hp.
  - change (JS.join "/" (p :: q :: rest'))
      with (p ++ String "/" (JS.join "/" (q :: rest'))).
    rewrite (segments_from_app _ _ _ Hslash).
    remember (JS.join "/" (q :: rest')) as tail eqn:Htail.
    simpl. rewrite Hp, IH. reflexivity.
Qed.

(** On a path made of segments, [goUp] leads to the path made of all of
    them but the last. *)
Lemma goUp_of_joined_segments (st : Browser.State) (segs : list string)
  (leaf : string) :
  Forall (fun s => JS.truthy s = true /\ JS.contains "/" s = false)
    (segs ++ [leaf])%list ->
  Browser.path st = JS.join "/" (segs ++ [leaf])%list ->
  Browser.path (Browser.goUp st) = JS.join "/" segs.
Proof.
  intros Hwf Hpath.
  rewrite goUp_path. simpl.
  rewrite Hpath, (segments_of_join _ Hwf), removelast_last. reflexivity.
Qed.

(** ** Offline download *)

Section OfflineDownload.

Import Http.
Import Browser.

Variable trim : string -> string.
Variable storage : StorageInfo.

Lemma truthy_false (s : string) : JS.truthy s = false <-> s = EmptyString.
Proof. destruct s; simpl; split; congruence. Qed.

Lemma loadFiles_requests (net : Net) (st : State) (log : Log) :
  requests (snd (loadFiles storage net st log)) =
  (requests log ++ [list_request storage (path st)])%list.
Proof.
  unfold loadFiles, bind, get, set, send. simpl.
  destruct (net (List.length (requests log))) as [|[] [data|]]; reflexivity.
Qed.

(** The body of the request: [filename] is left out when blank. *)
Lemma offline_body (link name : string) :
  stringify_object
    [("url", Some (JsonString (trim link)));
     ("filename", filename_or_undefined trim name)] =
  ("url", JsonString (trim link))
  :: (if String.eqb (trim name) EmptyString then []
      else [("filename", JsonString (trim name))]).
Proof.
  unfold filename_or_undefined. destruct (trim name); reflexivity.
Qed.

(** C6. When the URL of the form is blank after trimming, the handler
    sends nothing and leaves the state as it is.  Otherwise it sends one
    POST, to the current path of the storage with [action=fetch], whose
    JSON body holds the trimmed URL and, unless it is blank, the trimmed
    file name; the only request that may follow is the listing of the
    current path. *)
Theorem offline_download_trigger (net : Net) (st : State) :
  let link := trim (offlineUrl st) in
  let name := trim (offlineFilename st) in
  let outcome := run (handleOfflineDownload trim storage) net st in
  (link = EmptyString -> outcome = (st, empty_log)) /\
  (link <> EmptyString ->
   exists later,
     requests (snd outcome) =
       {| method := POST;
          url := "/api/files/" ++ JS.number_to_string (id storage) ++ "/"
                 ++ path st ++ "?action=fetch";
          headers := [("Content-Type", "application/json")];
          body := JsonBody
                    (("url", JsonString link)
                     :: (if String.eqb name EmptyString then []
                         else [("filename", JsonString name)])) |}
       :: later /\
     (later = [] \/ later = [list_request storage (path st)]) /\
     Forall (fun r => method r <> POST) later).
Proof.
  intros link name outcome. subst outcome link name.
  unfold run, handleOfflineDownload, bind, get. cbv beta iota.
  destruct (JS.truthy (trim (offlineUrl st))) eqn:Hurl; cbn [negb].
  - split.
    + intros H. apply truthy_false in H. congruence.
    + intros _. rewrite offline_body.
      unfold set, send, alert, empty_log, files_url, json_headers.
      cbn [requests alerts List.length app].
      destruct (net 0%nat) as [|ok [data|]].
      * exists []. repeat split; auto.
      * destruct ok, (success data) as [[]|]; cbn [andb];
          try (exists []; repeat split; now auto).
        exists [list_request storage (path st)].
        match goal with
        | |- context [loadFiles storage net ?s ?l] =>
            pose proof (loadFiles_requests net s l) as Hreq;
            destruct (loadFiles storage net s l) as [[u s'] l']
        end.
        cbn [snd requests] in Hreq |- *. rewrite Hreq.
        cbn [path setOfflineDownloading setShowOfflineDownload
             setOfflineFilename setOfflineUrl app].
        repeat split; [now right | repeat constructor; discriminate].
      * exists []. repeat split; auto.
  - split.
    + intros _. reflexivity.
    + intros H. apply truthy_false in Hurl. contradiction.
Qed.

End OfflineDownload.

Lemma offline_download_trigger_witness :
  Http.run (Browser.handleOfflineDownload JS.ascii_trim Browser.demo_storage)
    Browser.demo_net (Browser.demo_state "   ") =
  (Browser.demo_state "   ", Http.empty_log) /\
  exists later,
    Http.requests
      (snd (Http.run
              (Browser.handleOfflineDownload JS.ascii_trim Browser.demo_storage)
              Browser.demo_net
              (Browser.demo_state " https://example.com/clip.mp4 "))) =
    {| Http.method := Http.POST;
       Http.url := "/api/files/7/videos/2024?action=fetch";
       Http.headers := [("Content-Type", "application/json")];
       Http.body :=
         Http.JsonBody
           [("url", Http.JsonString "https://example.com/clip.mp4")] |}
    :: later /\
    (later = [] \/
     later = [Browser.list_request Browser.demo_storage "videos/2024"]) /\
    Forall (fun r => Http.method r <> Http.POST) later.
Proof.
  split.
  - apply (proj1 (offline_download_trigger JS.ascii_trim Browser.demo_storage
                    Browser.demo_net (Browser.demo_state "   "))).
    reflexivity.
  - apply (proj2 (offline_download_trigger JS.ascii_trim Browser.demo_storage
                    Browser.demo_net
                    (Browser.demo_state " https://example.com/clip.mp4 "))).
    simpl. discriminate.
Defined.

(** ** The endpoints of the client *)

Section Endpoints.

Import Http.
Import Client.

Variable sid : Z.

Lemma startsWith_app (p s : string) : JS.startsWith p (p ++ s) = true.
Proof.
  unfold JS.startsWith. induction p as [|c p IH]; simpl.
  - destruct s; reflexivity.
  - destruct (Ascii.ascii_dec c c) as [_|Hne]; [exact IH|congruence].
Qed.

Lemma keeps_ret {St A : Type} (a : A) : keeps_api sid (ret (St := St) a).
Proof. intros net st log H. exact H. Qed.

Lemma keeps_get {St : Type} : keeps_api sid (get (St := St)).
Proof. intros net st log H. exact H. Qed.

Lemma keeps_set {St : Type} (update : St -> St) : keeps_api sid (set update).
Proof. intros net st log H. exact H. Qed.

Lemma keeps_alert {St : Type} (message : string) :
  keeps_api sid (alert (St := St) message).
Proof. intros net st log H. exact H. Qed.

Lemma keeps_send {St : Type} (r : Request) :
  targets_api sid (url r) = true -> keeps_api sid (send (St := St) r).
Proof.
  intros Hr net st log H. unfold api_log, send in *. simpl.
  apply Forall_app. split; [exact H|]. constructor; [exact Hr|constructor].
Qed.

Lemma keeps_bind {St A B : Type} (m : Eff St A) (f : A -> Eff St B) :
  keeps_api sid m -> (forall a, keeps_api sid (f a)) ->
  keeps_api sid (bind m f).
Proof.
  intros Hm Hf net st log H. unfold bind.
  specialize (Hm net st log H).
  destruct (m net st log) as [[a st'] log']. now apply Hf.
Qed.

(** A handler that keeps logs within the API issues, when run, requests
    to the API only. *)
Lemma run_keeps {St A : Type} (m : Eff St A) (net : Net) (st : St) :
  keeps_api sid m -> api_log sid (snd (run m net st)).
Proof.
  intros Hm. unfold run.
  specialize (Hm net st empty_log (Forall_nil _)).
  destruct (m net st empty_log) as [[a st'] log]. exact Hm.
Qed.

End Endpoints.

(** Decompose a handler into its primitive steps, down to the requests
    it sends. *)
Ltac keeps :=
  repeat first
    [ apply keeps_ret | apply keeps_get | apply keeps_set | apply keeps_alert
    | apply keeps_bind; [|intros ?]
    | match goal with
      | |- Client.keeps_api _ (match ?x with _ => _ end) => destruct x
      | |- Client.keeps_api _ (if ?x then _ else _) => destruct x
      end ].

Section ClientFacts.

Import Http.
Import Client.

Variable toLowerCase : string -> string.
Variable trim : string -> string.
Variable storage : StorageInfo.

Lemma files_url_targets_api (rest : string) :
  targets_api (id storage) (Browser.files_url storage rest) = true.
Proof.
  unfold targets_api, Browser.files_url. apply orb_true_iff. right.
  rewrite <- (append_assoc (JS.number_to_string (id storage)) "/" rest).
  rewrite <- (append_assoc "/api/files/"
                (JS.number_to_string (id storage) ++ "/") rest).
  apply startsWith_app.
Qed.

Lemma storages_url_targets_api (query : string) :
  targets_api (id storage) ("/api/storages" ++ query) = true.
Proof.
  unfold targets_api. apply orb_true_iff. left. apply startsWith_app.
Qed.

Lemma fileUrl_targets_api (fileKey : string) :
  targets_api (id storage) (Preview.fileUrl (id storage) fileKey) = true.
Proof. apply (files_url_targets_api (fileKey ++ "?action=download")). Qed.

Lemma keeps_send_files {St : Type} (r : Request) (rest : string) :
  url r = Browser.files_url storage rest ->
  keeps_api (id storage) (send (St := St) r).
Proof.
  intros H. apply keeps_send. rewrite H. apply files_url_targets_api.
Qed.

Lemma keeps_send_storages {St : Type} (r : Request) (query : string) :
  url r = "/api/storages" ++ query ->
  keeps_api (id storage) (send (St := St) r).
Proof.
  intros H. apply keeps_send. rewrite H. apply storages_url_targets_api.
Qed.

Lemma keeps_loadFiles : keeps_api (id storage) (Browser.loadFiles storage).
Proof.
  unfold Browser.loadFiles. keeps.
  eapply keeps_send_files. reflexivity.
Qed.

Lemma keeps_upload_all (p : string) (files : list Browser.File) :
  keeps_api (id storage) (Browser.upload_all storage p files).
Proof.
  induction files as [|file rest IH]; simpl; [apply keeps_ret|].
  apply keeps_bind; [|intros ?; exact IH].
  unfold Browser.upload_one. cbv zeta. keeps.
  eapply keeps_send_files. reflexivity.
Qed.

Lemma keeps_refreshStorages : keeps_api (id storage) Home.refreshStorages.
Proof.
  unfold Home.refreshStorages. keeps.
  apply keeps_send_storages with (query := EmptyString). reflexivity.
Qed.

(** C5. Whatever the user does and however the server answers, every
    request the client issues goes to a URL that begins with
    [/api/storages] or with [/api/files/{storageId}/]. *)
Theorem every_request_targets_the_api
  (action : Action) (net : Net) (browser : Browser.State) (home : Home.State) :
  Forall (fun r => targets_api (id storage) (url r) = true)
    (issued toLowerCase trim storage action net browser home).
Proof.
  destruct action; unfold issued; cbv zeta;
    try (apply run_keeps).
  - apply keeps_loadFiles.
  - unfold Browser.downloadFile. keeps.
    eapply keeps_send_files. reflexivity.
  - unfold Browser.deleteFile.
    destruct confirmed; cbn [negb]; [|apply keeps_ret].
    apply keeps_bind; [eapply keeps_send_files; reflexivity|].
    intros [|[] [data|]]; first [apply keeps_loadFiles | apply keeps_alert].
  - unfold Browser.deleteFolder.
    destruct confirmed; cbn [negb]; [|apply keeps_ret].
    apply keeps_bind; [eapply keeps_send_files; reflexivity|].
    intros [|[] [data|]]; first [apply keeps_loadFiles | apply keeps_alert].
  - unfold Browser.handleUpload. destruct files as [|file rest];
      [apply keeps_ret|].
    apply keeps_bind; [apply keeps_get|]. intros st.
    apply keeps_bind; [apply keeps_upload_all|]. intros ?.
    apply keeps_bind; [apply keeps_set|]. intros ?.
    apply keeps_loadFiles.
  - unfold Browser.handleCreateFolder.
    apply keeps_bind; [apply keeps_get|]. intros st.
    destruct (negb (JS.truthy (trim (Browser.newFolderName st))));
      [apply keeps_ret|].
    apply keeps_bind; [apply keeps_set|]. intros ?. cbv zeta.
    apply keeps_bind; [eapply keeps_send_files; reflexivity|]. intros res.
    apply keeps_bind; [|intros ?; apply keeps_set].
    destruct res as [|[] [data|]];
      first [ apply keeps_alert
            | do 2 (apply keeps_bind; [apply keeps_set|intros ?]);
              apply keeps_loadFiles ].
  - unfold Browser.handleOfflineDownload.
    apply keeps_bind; [apply keeps_get|]. intros st.
    destruct (negb (JS.truthy (trim (Browser.offlineUrl st))));
      [apply keeps_ret|].
    apply keeps_bind; [apply keeps_set|]. intros ?.
    apply keeps_bind; [eapply keeps_send_files; reflexivity|]. intros res.
    apply keeps_bind; [|intros ?; apply keeps_set].
    destruct res as [|ok [data|]]; try apply keeps_alert.
    destruct (ok && _)%bool; [|apply keeps_alert]. cbv zeta.
    apply keeps_bind; [apply keeps_alert|]. intros ?.
    do 3 (apply keeps_bind; [apply keeps_set|intros ?]).
    apply keeps_loadFiles.
  - unfold Preview.preview_urls, Preview.preview_content. cbv zeta.
    pose proof (fileUrl_targets_api fileKey) as Hurl.
    destruct (FileUtils.getFileType toLowerCase fileName); simpl;
      repeat constructor; exact Hurl.
  - unfold Home.LoginModal_handleSubmit.
    do 2 (apply keeps_bind; [apply keeps_set|intros ?]).
    apply keeps_bind;
      [apply keeps_send_storages with (query := EmptyString); reflexivity|].
    intros res.
    apply keeps_bind; [|intros ?; apply keeps_set].
    destruct res as [|[] [data|]];
      first [ apply keeps_set
            | do 2 (apply keeps_bind; [apply keeps_set|intros ?]);
              apply keeps_refreshStorages ].
  - unfold Home.StorageModal_handleSubmit.
    do 2 (apply keeps_bind; [apply keeps_set|intros ?]).
    apply keeps_bind;
      [apply keeps_send_storages with (query := EmptyString); reflexivity|].
    intros res.
    apply keeps_bind; [|intros ?; apply keeps_set].
    destruct res as [|[] [data|]];
      first [ apply keeps_set
            | do 2 (apply keeps_bind; [apply keeps_set|intros ?]);
              apply keeps_refreshStorages ].
  - apply keeps_refreshStorages.
  - unfold Home.handleLogout.
    apply keeps_bind;
      [apply keeps_send_storages with (query := EmptyString); reflexivity|].
    intros [|ok data]; [apply keeps_ret|].
    do 2 (apply keeps_bind; [apply keeps_set|intros ?]).
    apply keeps_refreshStorages.
  - unfold Home.handleDeleteStorage.
    destruct confirmed; cbn [negb]; [|apply keeps_ret].
    apply keeps_bind; [apply keeps_get|]. intros st.
    apply keeps_bind;
      [apply keeps_send_storages
         with (query := "?id=" ++ JS.number_to_string (id s)); reflexivity|].
    intros [|[] data]; try apply keeps_ret.
    apply keeps_bind; [|intros ?; apply keeps_refreshStorages].
    destruct (Home.selectedStorage st) as [sel|]; [|apply keeps_ret].
    destruct (id sel =? id s)%Z; [apply keeps_set|apply keeps_ret].
Qed.

End ClientFacts.

(* ================================================================= *)
(** * Further properties of the handlers *)

Section SendsOnly.

Import Http.
Import Sent.

Variable P : Request -> Prop.

Lemma sends_only_ret {St A : Type} (a : A) : sends_only P (ret (St := St) a).
Proof. intros net st log H. exact H. Qed.

Lemma sends_only_get {St : Type} : sends_only P (get (St := St)).
Proof. intros net st log H. exact H. Qed.

Lemma sends_only_set {St : Type} (update : St -> St) :
  sends_only P (set update).
Proof. intros net st log H. exact H. Qed.

Lemma sends_only_alert {St : Type} (message : string) :
  sends_only P (alert (St := St) message).
Proof. intros net st log H. exact H. Qed.

Lemma sends_only_send {St : Type} (r : Request) :
  P r -> sends_only P (send (St := St) r).
Proof.
  intros Hr net st log H. unfold send. simpl.
  apply Forall_app. split; [exact H|]. constructor; [exact Hr|constructor].
Qed.

Lemma sends_only_bind {St A B : Type} (m : Eff St A) (f : A -> Eff St B) :
  sends_only P m -> (forall a, sends_only P (f a)) ->
  sends_only P (bind m f).
Proof.
  intros Hm Hf net st log H. unfold bind.
  specialize (Hm net st log H).
  destruct (m net st log) as [[a st'] log']. now apply Hf.
Qed.

Lemma run_sends_only {St A : Type} (m : Eff St A) (net : Net) (st : St) :
  sends_only P m -> Forall P (requests (snd (run m net st))).
Proof.
  intros Hm. unfold run.
  specialize (Hm net st empty_log (Forall_nil _)).
  destruct (m net st empty_log) as [[a st'] log]. exact Hm.
Qed.

End SendsOnly.

(** Split a handler into its steps; what is left are the requests. *)
Ltac sends :=
  repeat first
    [ apply sends_only_ret | apply sends_only_get | apply sends_only_set
    | apply sends_only_alert
    | apply sends_only_bind; [|intros ?]
    | match goal with
      | |- Sent.sends_only _ (match ?x with _ => _ end) => destruct x
      | |- Sent.sends_only _ (if ?x then _ else _) => destruct x
      | |- Sent.sends_only _ (let _ := _ in _) => cbv zeta
      end
    | apply sends_only_send ].

Section Deletions.

Import Http.
Import Sent.

Variable toLowerCase : string -> string.
Variable trim : string -> string.
Variable storage : StorageInfo.

Lemma loadFiles_never_deletes :
  sends_only not_a_delete (Browser.loadFiles storage).
Proof. unfold Browser.loadFiles. sends. discriminate. Qed.

Lemma upload_all_never_deletes (p : string) (files : list Browser.File) :
  sends_only not_a_delete (Browser.upload_all storage p files).
Proof.
  induction files as [|file rest IH]; simpl; [apply sends_only_ret|].
  apply sends_only_bind; [|intros ?; exact IH].
  unfold Browser.upload_one. sends. discriminate.
Qed.

Lemma refreshStorages_never_deletes :
  sends_only not_a_delete (St := Home.State) Home.refreshStorages.
Proof. unfold Home.refreshStorages. sends. discriminate. Qed.

End Deletions.

Section NoDeletionUnconfirmed.

Import Http.
Import Sent.

Variable toLowerCase : string -> string.
Variable trim : string -> string.
Variable storage : StorageInfo.

(** X1. A DELETE request leaves the client only from a deletion that the
    user has confirmed: declining the dialog sends nothing, and no other
    action ever sends a DELETE. *)
Theorem delete_only_when_confirmed
  (action : Client.Action) (net : Net)
  (browser : Browser.State) (home : Home.State) :
  (forall r,
      In r (Client.issued toLowerCase trim storage action net browser home) ->
      method r = DELETE -> confirmed_deletion action = true) /\
  (match action with
   | Client.DeleteFile _ false
   | Client.DeleteFolder _ _ false
   | Client.DeleteStorage _ false =>
       Client.issued toLowerCase trim storage action net browser home = []
   | _ => True
   end).
Proof.
  split.
  - assert (H : Forall (fun r => method r = DELETE ->
                                 confirmed_deletion action = true)
                  (Client.issued toLowerCase trim storage action
                     net browser home)).
    { assert (Hweak : forall l,
                 Forall not_a_delete l ->
                 Forall (fun r => method r = DELETE ->
                                  confirmed_deletion action = true) l).
      { intros l Hl. eapply Forall_impl; [|exact Hl].
        intros r Hr Hdel. contradiction. }
      destruct action; unfold Client.issued; cbv zeta;
        try (destruct confirmed;
             [ apply Forall_forall; intros; reflexivity
             | constructor ]);
        try (apply Hweak; apply run_sends_only).
      - apply loadFiles_never_deletes.
      - unfold Browser.downloadFile. sends. discriminate.
      - unfold Browser.handleUpload. destruct files; [apply sends_only_ret|].
        apply sends_only_bind; [apply sends_only_get|]. intros st.
        apply sends_only_bind; [apply upload_all_never_deletes|]. intros ?.
        apply sends_only_bind; [apply sends_only_set|]. intros ?.
        apply loadFiles_never_deletes.
      - unfold Browser.handleCreateFolder. sends; discriminate.
      - unfold Browser.handleOfflineDownload. sends; discriminate.
      - apply Hweak. unfold Preview.preview_urls, Preview.preview_content.
        cbv zeta.
        destruct (FileUtils.getFileType toLowerCase fileName); simpl;
          repeat constructor; discriminate.
      - unfold Home.LoginModal_handleSubmit. sends; discriminate.
      - unfold Home.StorageModal_handleSubmit. sends;
          try discriminate; destruct editing; discriminate.
      - apply refreshStorages_never_deletes.
      - unfold Home.handleLogout. sends; discriminate. }
    intros r Hin. rewrite Forall_forall in H. now apply H.
  - destruct action; try exact I; destruct confirmed; try exact I; reflexivity.
Qed.

End NoDeletionUnconfirmed.

Section BrowserHandlers.

Import Http.
Import Browser.
Import Sent.

Variable trim : string -> string.
Variable storage : StorageInfo.

Lemma or_default_truthy (a : option string) (b : string) :
  JS.truthy b = true -> JS.truthy (JS.or_default a b) = true.
Proof.
  intros Hb. destruct a as [s|]; simpl; [|exact Hb].
  unfold JS.or_else. destruct (JS.truthy s) eqn:Hs; assumption.
Qed.

Lemma truthy_true (s : string) : JS.truthy s = true <-> s <> EmptyString.
Proof. destruct s; simpl; split; congruence. Qed.

(** What [loadFiles] does to a state and a log. *)
Lemma loadFiles_effect (net : Net) (st : State) (log : Log) :
  let answer := net (List.length (requests log)) in
  loadFiles storage net st log =
  (tt,
   setLoading false
     (match answer with
      | Response true (Some data) =>
          setObjects (match Http.objects data with
                      | Some l => l
                      | None => []
                      end) (setError "" (setLoading true st))
      | Response false (Some data) =>
          setError (JS.or_default (Http.error data) "加载失败")
            (setError "" (setLoading true st))
      | _ => setError "网络错误" (setError "" (setLoading true st))
      end),
   {| requests := (requests log ++ [list_request storage (path st)])%list;
      alerts := alerts log |}).
Proof.
  unfold loadFiles, bind, get, set, send. simpl.
  destruct (net (List.length (requests log))) as [|[] [data|]]; reflexivity.
Qed.

(** X2. [loadFiles] sends the listing request of the current path and
    nothing else, never leaves the loading flag set and never alerts.  A
    listing that arrives replaces the objects and clears the error; any
    failure keeps the objects that were shown and sets a non-empty error
    message. *)
Theorem loadFiles_outcome (net : Net) (st : State) :
  let st' := fst (run (loadFiles storage) net st) in
  let log := snd (run (loadFiles storage) net st) in
  requests log = [list_request storage (path st)] /\
  alerts log = [] /\
  loading st' = false /\
  path st' = path st /\
  previewFile st' = previewFile st /\
  match net 0%nat with
  | Response true (Some data) =>
      error st' = EmptyString /\
      objects st' = match Http.objects data with Some l => l | None => [] end
  | _ =>
      error st' <> EmptyString /\ objects st' = objects st
  end.
Proof.
  unfold run. rewrite loadFiles_effect. simpl.
  destruct (net 0%nat) as [|[] [data|]]; simpl; repeat split;
    try discriminate.
  apply truthy_true, or_default_truthy. reflexivity.
Qed.

(** Uploading files changes no state cell and sends one request each. *)
Lemma upload_all_effect (p : string) (files : list File)
  (net : Net) (st : State) (log : Log) :
  exists messages,
    upload_all storage p files net st log =
    (tt, st,
     {| requests := (requests log ++ map (upload_request storage p) files)%list;
        alerts := (alerts log ++ messages)%list |}).
Proof.
  revert log. induction files as [|file rest IH]; intros log.
  - exists []. simpl. unfold ret. rewrite !app_nil_r. now destruct log.
  - simpl. unfold bind at 1.
    assert (Hone : exists ms,
               upload_one storage p file net st log =
               (tt, st,
                {| requests :=
                     (requests log ++ [upload_request storage p file])%list;
                   alerts := (alerts log ++ ms)%list |})).
    { unfold upload_one, bind, send, alert, ret. cbv zeta.
      destruct (net (List.length (requests log))) as [|[] [data|]];
        simpl; eexists;
        try (rewrite app_nil_r; reflexivity); reflexivity. }
    destruct Hone as [ms ->].
    destruct (IH {| requests :=
                      (requests log ++ [upload_request storage p file])%list;
                    alerts := (alerts log ++ ms)%list |}) as [ms' ->].
    exists (ms ++ ms')%list. simpl. now rewrite <- !app_assoc.
Qed.

(** X3. [handleUpload] sends one PUT for each selected file, in the order
    of the selection, to the file's name under the current path (or at the
    root), whatever the server answers in between; it then lists the current
    path once and clears the progress indicator.  An empty selection sends
    nothing and changes nothing. *)
Theorem handleUpload_requests (files : list File) (net : Net) (st : State) :
  let st' := fst (run (handleUpload storage files) net st) in
  let log := snd (run (handleUpload storage files) net st) in
  (files = [] -> st' = st /\ log = empty_log) /\
  (files <> [] ->
   requests log =
     (map (upload_request storage (path st)) files
      ++ [list_request storage (path st)])%list /\
   uploadProgress st' = None /\
   path st' = path st).
Proof.
  intros st' log. subst st' log. destruct files as [|file rest].
  - split; [intros _; split; reflexivity|congruence].
  - split; [discriminate|]. intros _.
    assert (Hrun : exists st1 ms,
               run (handleUpload storage (file :: rest)) net st =
               (st1,
                {| requests :=
                     (map (upload_request storage (path st)) (file :: rest)
                      ++ [list_request storage (path st)])%list;
                   alerts := ms |}) /\
               uploadProgress st1 = None /\ path st1 = path st).
    { unfold run, handleUpload.
      unfold bind at 1. unfold get at 1.
      unfold bind at 1.
      destruct (upload_all_effect (path st) (file :: rest) net st empty_log)
        as [ms ->].
      unfold bind at 1. unfold set at 1.
      rewrite loadFiles_effect. cbn [requests alerts empty_log app].
      eexists _, _. split; [reflexivity|].
      match goal with
      | |- context [match net ?n with _ => _ end] =>
          destruct (net n) as [|[] [data|]]
      end; split; reflexivity. }
    destruct Hrun as (st1 & ms & -> & Hprogress & Hpath).
    simpl. auto.
Qed.

End BrowserHandlers.

Lemma handleUpload_requests_witness :
  Http.requests
    (snd (Http.run (Browser.handleUpload Browser.demo_storage Session.picked)
            Session.refusing (Browser.demo_state ""))) =
  [ {| Http.method := Http.PUT;
       Http.url := "/api/files/7/videos/2024/a.png";
       Http.headers := [("Content-Type", "image/png")];
       Http.body := Http.FileBody "a.png" |};
    {| Http.method := Http.PUT;
       Http.url := "/api/files/7/videos/2024/notes";
       Http.headers := [("Content-Type", "application/octet-stream")];
       Http.body := Http.FileBody "notes" |};
    Browser.list_request Browser.demo_storage "videos/2024" ] /\
  snd (Http.run (Browser.handleUpload Browser.demo_storage [])
         Session.refusing (Browser.demo_state "")) = Http.empty_log.
Proof.
  split.
  - apply (proj2 (handleUpload_requests Browser.demo_storage Session.picked
                    Session.refusing (Browser.demo_state ""))).
    discriminate.
  - apply (proj1 (handleUpload_requests Browser.demo_storage []
                    Session.refusing (Browser.demo_state ""))).
    reflexivity.
Defined.

Section FolderAndDownload.

Import Http.
Import Browser.
Import Sent.

Variable trim : string -> string.
Variable storage : StorageInfo.

(** X4. [handleCreateFolder] does nothing when the folder name is blank
    after trimming.  Otherwise it sends one POST with [action=mkdir] for
    the trimmed name under the current path (at the root: for the name
    alone), followed at most by the listing of the current path; the
    [creatingFolder] flag is down again at the end, the input is closed and
    emptied exactly when the server accepts, and the path never changes. *)
Theorem handleCreateFolder_outcome (net : Net) (st : State) :
  let name := trim (newFolderName st) in
  let st' := fst (run (handleCreateFolder trim storage) net st) in
  let log := snd (run (handleCreateFolder trim storage) net st) in
  (name = EmptyString -> st' = st /\ log = empty_log) /\
  (name <> EmptyString ->
   let mkdir :=
     {| method := POST;
        url := files_url storage
                 ((if JS.truthy (path st) then path st ++ "/" ++ name
                   else name) ++ "?action=mkdir");
        headers := [];
        body := NoBody |} in
   creatingFolder st' = false /\
   path st' = path st /\
   if is_ok (net 0%nat)
   then requests log = [mkdir; list_request storage (path st)] /\
        alerts log = [] /\
        showNewFolderInput st' = false /\
        newFolderName st' = EmptyString
   else requests log = [mkdir] /\
        List.length (alerts log) = 1%nat /\
        showNewFolderInput st' = showNewFolderInput st /\
        newFolderName st' = newFolderName st).
Proof.
  intros name st' log. subst name st' log.
  unfold run, handleCreateFolder, loadFiles, bind, get, set, send, alert,
    ret, empty_log.
  destruct (JS.truthy (trim (newFolderName st))) eqn:Hname; simpl.
  - split; [intros H; apply truthy_false in H; congruence|]. intros _.
    destruct (net 0%nat) as [|[] data]; simpl.
    + repeat split.
    + destruct (net 1%nat) as [|[] [listing|]]; repeat split.
    + destruct data; repeat split.
  - split; [intros _; split; reflexivity|].
    intros H. apply truthy_false in Hname. contradiction.
Qed.

(** X5. A submitted offline download always ends with the
    [offlineDownloading] flag down and with exactly one alert.  When the
    server reports success the form is emptied and closed and the current
    path is listed again; otherwise the form keeps what was typed and no
    further request is sent. *)
Theorem handleOfflineDownload_outcome (net : Net) (st : State) :
  trim (offlineUrl st) <> EmptyString ->
  let st' := fst (run (handleOfflineDownload trim storage) net st) in
  let log := snd (run (handleOfflineDownload trim storage) net st) in
  offlineDownloading st' = false /\
  List.length (alerts log) = 1%nat /\
  path st' = path st /\
  if download_succeeded (net 0%nat)
  then offlineUrl st' = EmptyString /\
       offlineFilename st' = EmptyString /\
       showOfflineDownload st' = false /\
       List.length (requests log) = 2%nat
  else offlineUrl st' = offlineUrl st /\
       offlineFilename st' = offlineFilename st /\
       showOfflineDownload st' = showOfflineDownload st /\
       objects st' = objects st /\
       List.length (requests log) = 1%nat.
Proof.
  intros Hlink st' log. subst st' log.
  apply truthy_true in Hlink.
  unfold run, handleOfflineDownload, loadFiles, bind, get, set, send, alert,
    ret, empty_log.
  rewrite Hlink. simpl.
  destruct (net 0%nat) as [|ok [data|]]; simpl.
  - repeat split.
  - destruct ok, (success data) as [[]|]; simpl;
      try (repeat split; fail).
    destruct (net 1%nat) as [|[] [listing|]]; repeat split.
  - destruct ok; repeat split.
Qed.

End FolderAndDownload.

Lemma handleCreateFolder_outcome_witness :
  (fst (Http.run
          (Browser.handleCreateFolder JS.ascii_trim Browser.demo_storage)
          Browser.demo_net (Session.naming_folder "   ")) =
   Session.naming_folder "   " /\
   snd (Http.run
          (Browser.handleCreateFolder JS.ascii_trim Browser.demo_storage)
          Browser.demo_net (Session.naming_folder "   ")) =
   Http.empty_log) /\
  Http.requests
    (snd (Http.run
            (Browser.handleCreateFolder JS.ascii_trim Browser.demo_storage)
            Browser.demo_net (Session.naming_folder " photos "))) =
  [ {| Http.method := Http.POST;
       Http.url := "/api/files/7/photos?action=mkdir";
       Http.headers := [];
       Http.body := Http.NoBody |};
    Browser.list_request Browser.demo_storage "" ].
Proof.
  split.
  - apply (proj1 (handleCreateFolder_outcome JS.ascii_trim
                    Browser.demo_storage Browser.demo_net
                    (Session.naming_folder "   "))).
    reflexivity.
  - apply (proj2 (handleCreateFolder_outcome JS.ascii_trim
                    Browser.demo_storage Browser.demo_net
                    (Session.naming_folder " photos "))).
    simpl. discriminate.
Defined.

Lemma handleOfflineDownload_outcome_witness :
  Browser.offlineUrl
    (fst (Http.run
            (Browser.handleOfflineDownload JS.ascii_trim Browser.demo_storage)
            Session.refusing
            (Browser.demo_state " https://example.com/clip.mp4 "))) =
  " https://example.com/clip.mp4 ".
Proof.
  apply (handleOfflineDownload_outcome JS.ascii_trim Browser.demo_storage
           Session.refusing
           (Browser.demo_state " https://example.com/clip.mp4 ")).
  simpl. discriminate.
Defined.

Section HomeHandlers.

Import Http.
Import Home.
Import Sent.

(** The keys [stringify_object] keeps are those whose value is defined. *)
Lemma stringify_object_keys (props : list (string * option Json)) (k : string) :
  In k (map fst (stringify_object props)) <->
  exists v, In (k, Some v) props.
Proof.
  induction props as [|[key [v|]] rest IH]; simpl.
  - split; [contradiction|intros [v []]].
  - rewrite IH. split.
    + intros [<- | [w Hw]]; eauto.
    + intros [w [Heq | Hin]]; [injection Heq as -> _; auto|eauto].
  - rewrite IH. split.
    + intros [w Hw]; eauto.
    + intros [w [Heq | Hin]]; [discriminate|eauto].
Qed.

(** What the body of the storage form holds. *)
Lemma storage_body_members (storage : option StorageInfo) (formData : FormData) :
  let members := stringify_object (storage_body storage formData) in
  (In "id" (map fst members) <-> storage <> None) /\
  (In "secretAccessKey" (map fst members) <->
   storage = None \/ form_secretAccessKey formData <> EmptyString) /\
  (In ("secretAccessKey", JsonString EmptyString) members -> storage = None).
Proof.
  cbv zeta. repeat split.
  - destruct storage; [discriminate|].
    intros H. apply stringify_object_keys in H. destruct H as [v Hv].
    simpl in Hv. repeat (destruct Hv as [Hv|Hv]; [discriminate|]).
    contradiction.
  - intros H. apply stringify_object_keys.
    destruct storage as [s|]; [|congruence].
    exists (JsonNumber (id s)). simpl. auto.
  - intros H. apply stringify_object_keys in H. destruct H as [v Hv].
    destruct storage as [s|]; [right|now left].
    simpl in Hv.
    repeat (destruct Hv as [Hv|Hv]; [try discriminate|]); try contradiction.
    destruct (JS.truthy (form_secretAccessKey formData)) eqn:Hsecret;
      [now apply truthy_true|discriminate].
  - intros H. apply stringify_object_keys.
    destruct storage as [s|].
    + destruct H as [H|H]; [discriminate|]. apply truthy_true in H.
      exists (JsonString (form_secretAccessKey formData)).
      simpl. rewrite H. do 5 right. now left.
    + exists (JsonString (form_secretAccessKey formData)).
      simpl. do 4 right. now left.
  - intros Hin.
    destruct storage as [s|]; [|reflexivity]. exfalso.
    simpl in Hin.
    destruct Hin as [Hin|Hin]; [discriminate|].
    do 4 (destruct Hin as [Hin|Hin]; [discriminate|]).
    destruct (JS.truthy (form_secretAccessKey formData)) eqn:Hsecret.
    + simpl in Hin. destruct Hin as [Hin|Hin].
      * injection Hin as Hin. rewrite Hin in Hsecret. discriminate.
      * repeat (destruct Hin as [Hin|Hin]; [discriminate|]). contradiction.
    + simpl in Hin.
      repeat (destruct Hin as [Hin|Hin]; [discriminate|]). contradiction.
Qed.

(** X6. The storage form is sent to [/api/storages] with PUT and the
    storage's id when a storage is edited, with POST and no id when one is
    added.  When an edit leaves the secret key blank the body has no
    [secretAccessKey] member at all; in every other case it carries the
    key that was typed, and an edit never sends an empty key. *)
Theorem StorageModal_request
  (storage : option StorageInfo) (formData : FormData)
  (net : Net) (st : State) :
  exists members later,
    requests (snd (run (StorageModal_handleSubmit storage formData) net st)) =
      {| method := match storage with Some _ => PUT | None => POST end;
         url := "/api/storages";
         headers := [("Content-Type", "application/json")];
         body := JsonBody members |} :: later /\
    (In "id" (map fst members) <-> storage <> None) /\
    (In "secretAccessKey" (map fst members) <->
     storage = None \/ form_secretAccessKey formData <> EmptyString) /\
    (In ("secretAccessKey", JsonString EmptyString) members ->
     storage = None).
Proof.
  exists (stringify_object (storage_body storage formData)).
  assert (Hsent : exists later,
    requests (snd (run (StorageModal_handleSubmit storage formData) net st)) =
      {| method := match storage with Some _ => PUT | None => POST end;
         url := "/api/storages";
         headers := [("Content-Type", "application/json")];
         body := JsonBody (stringify_object (storage_body storage formData)) |}
      :: later).
  { unfold run, StorageModal_handleSubmit, refreshStorages,
      bind, get, set, send, alert, ret, empty_log. simpl.
    destruct (net 0%nat) as [|[] [data|]]; simpl;
      try destruct (net 1%nat) as [|[] [listing|]]; simpl;
      eexists; reflexivity. }
  destruct Hsent as [later Hsent]. exists later.
  split; [exact Hsent|]. apply storage_body_members.
Qed.

(** X7. A login that the server does not accept grants nothing: one POST
    to [/api/storages] has been sent, [isAdmin], the storages and the
    selection are what they were, the modal stays open and shows a
    non-empty error.  Whatever the answer, the user name and the password
    travel in the body only: every request of a login goes to the bare
    [/api/storages], and the loading flag ends down. *)
Theorem login_refused_grants_nothing
  (username password : string) (net : Net) (st : State) :
  let st' := fst (run (LoginModal_handleSubmit username password) net st) in
  let log := snd (run (LoginModal_handleSubmit username password) net st) in
  Forall (fun r => url r = "/api/storages") (requests log) /\
  modal_loading st' = false /\
  (is_ok (net 0%nat) = false ->
   List.length (requests log) = 1%nat /\
   isAdmin st' = isAdmin st /\
   storages st' = storages st /\
   selectedStorage st' = selectedStorage st /\
   showLogin st' = showLogin st /\
   modal_error st' <> EmptyString).
Proof.
  intros st' log. subst st' log.
  unfold run, LoginModal_handleSubmit, refreshStorages,
    bind, get, set, send, alert, ret, empty_log. simpl.
  destruct (net 0%nat) as [|[] [data|]]; simpl;
    try destruct (net 1%nat) as [|[] [listing|]]; simpl;
    repeat split; try discriminate; repeat constructor.
  all: apply truthy_true, or_default_truthy; reflexivity.
Qed.

(** X8. Deleting a storage never leaves it selected: after a deletion the
    server accepted, the selection is empty if it was the deleted storage
    and untouched otherwise.  A deletion that is declined, refused or lost
    changes nothing on the page. *)
Theorem handleDeleteStorage_selection
  (s : StorageInfo) (confirmed : bool) (net : Net) (st : State) :
  let st' := fst (run (handleDeleteStorage s confirmed) net st) in
  (confirmed && is_ok (net 0%nat) = true ->
   selectedStorage st' =
     match selectedStorage st with
     | Some sel => if (id sel =? id s)%Z then None else Some sel
     | None => None
     end /\
   (forall sel, selectedStorage st' = Some sel -> id sel <> id s)) /\
  (confirmed && is_ok (net 0%nat) = false -> st' = st).
Proof.
  intros st'. subst st'.
  unfold run, handleDeleteStorage, refreshStorages,
    bind, get, set, send, alert, ret, empty_log.
  destruct confirmed; simpl; [|split; [discriminate|reflexivity]].
  destruct (net 0%nat) as [|[] data]; simpl;
    try (split; [discriminate|reflexivity]).
  split; [|discriminate]. intros _.
  destruct (selectedStorage st) as [sel|] eqn:Hsel; simpl.
  - destruct (id sel =? id s)%Z eqn:Hid; simpl;
      destruct (net 1%nat) as [|[] [listing|]]; simpl;
      rewrite ?Hsel; (split; [reflexivity|]); intros x Hx;
      try discriminate; injection Hx as <-; now apply Z.eqb_neq.
  - destruct (net 1%nat) as [|[] [listing|]]; simpl; rewrite ?Hsel;
      (split; [reflexivity|]); discriminate.
Qed.

End HomeHandlers.

Lemma login_refused_grants_nothing_witness :
  Home.isAdmin
    (fst (Http.run (Home.LoginModal_handleSubmit "root" "guess")
            Session.refusing Office.visitor)) = Some false /\
  Home.modal_error
    (fst (Http.run (Home.LoginModal_handleSubmit "root" "guess")
            Session.refusing Office.visitor)) = "forbidden".
Proof.
  split; [|reflexivity].
  apply (proj2 (proj2 (login_refused_grants_nothing "root" "guess"
                         Session.refusing Office.visitor)) eq_refl).
Defined.

Lemma handleDeleteStorage_selection_witness :
  Home.selectedStorage
    (fst (Http.run (Home.handleDeleteStorage Office.backup true)
            Office.accepting Office.admin)) = None /\
  fst (Http.run (Home.handleDeleteStorage Office.backup true)
         Session.refusing Office.admin) = Office.admin.
Proof.
  split.
  - apply (proj1 (handleDeleteStorage_selection Office.backup true
                    Office.accepting Office.admin) eq_refl).
  - apply (proj2 (handleDeleteStorage_selection Office.backup true
                    Session.refusing Office.admin) eq_refl).
Defined.

Lemma StorageModal_request_witness :
  exists members later,
    Http.requests
      (snd (Http.run
              (Home.StorageModal_handleSubmit (Some Office.backup)
                 (Office.form ""))
              Office.accepting Office.admin)) =
    {| Http.method := Http.PUT;
       Http.url := "/api/storages";
       Http.headers := [("Content-Type", "application/json")];
       Http.body := Http.JsonBody members |} :: later /\
    In "id" (map fst members) /\
    ~ In "secretAccessKey" (map fst members).
Proof.
  destruct (StorageModal_request (Some Office.backup) (Office.form "")
              Office.accepting Office.admin)
    as (members & later & Hsent & Hid & Hsecret & _).
  exists members, later. split; [exact Hsent|]. split.
  - apply Hid. discriminate.
  - intros H. apply Hsecret in H. destruct H as [H|H]; [discriminate|].
    apply H. reflexivity.
Defined.

(* ================================================================= *)
(** * Paths *)

Section Paths.

Import Http.
Import Browser.
Import Navigation.

Lemma strip_leading_slash_cons (c : ascii) (rest : string) :
  strip_leading_slash (String c rest) =
  if Ascii.eqb c "/" then rest else String c rest.
Proof. destruct c as [[] [] [] [] [] [] [] []]; reflexivity. Qed.

Lemma strip_trailing_slash_cons (c : ascii) (rest : string) :
  strip_trailing_slash (String c rest) =
  if andb (Ascii.eqb c "/") (negb (JS.truthy rest)) then EmptyString
  else String c (strip_trailing_slash rest).
Proof.
  destruct c as [[] [] [] [] [] [] [] []]; destruct rest; reflexivity.
Qed.

(** Only the end of a string matters to [strip_trailing_slash]. *)
Lemma strip_trailing_slash_app (a b : string) :
  JS.truthy b = true ->
  strip_trailing_slash (a ++ b) = a ++ strip_trailing_slash b.
Proof.
  intros Hb. induction a as [|c a IH]; [reflexivity|].
  change (String c a ++ b) with (String c (a ++ b)).
  rewrite strip_trailing_slash_cons, IH.
  assert (Hne : JS.truthy (a ++ b) = true).
  { destruct a; [exact Hb|reflexivity]. }
  rewrite Hne, andb_false_r. reflexivity.
Qed.

(** A string without slash is left alone. *)
Lemma strip_trailing_slash_clean (s : string) :
  JS.contains "/" s = false -> strip_trailing_slash s = s.
Proof.
  induction s as [|c s IH]; [reflexivity|]. simpl JS.contains.
  intros H. apply orb_false_iff in H. destruct H as [Hc Hs].
  rewrite strip_trailing_slash_cons, Hc, (IH Hs). reflexivity.
Qed.

Lemma strip_trailing_slash_of_slash (s : string) :
  strip_trailing_slash (s ++ "/") = s.
Proof.
  rewrite strip_trailing_slash_app by reflexivity. apply append_empty_r.
Qed.

(** The join of clean segments neither starts nor ends with a slash. *)
Lemma join_clean_stripped (segs : list string) :
  Forall clean segs ->
  strip_leading_slash (JS.join "/" segs) = JS.join "/" segs /\
  strip_trailing_slash (JS.join "/" segs) = JS.join "/" segs.
Proof.
  intros H. split.
  - destruct H as [|p rest [Hp Hslash] _]; [reflexivity|].
    destruct p as [|c p]; [discriminate|].
    simpl in Hslash. apply orb_false_iff in Hslash. destruct Hslash as [Hc _].
    assert (Hjoin : exists tail, JS.join "/" (String c p :: rest) = String c tail).
    { destruct rest; simpl; eauto. }
    destruct Hjoin as [tail ->].
    now rewrite strip_leading_slash_cons, Hc.
  - induction H as [|p rest [Hp Hslash] Hrest IH]; [reflexivity|].
    destruct rest as [|q rest'].
    + simpl. now apply strip_trailing_slash_clean.
    + change (JS.join "/" (p :: q :: rest'))
        with (p ++ String "/" (JS.join "/" (q :: rest'))).
      assert (Hq : JS.truthy (JS.join "/" (q :: rest')) = true).
      { inversion Hrest as [|? ? [Hq _] _]; subst.
        destruct q; [discriminate|]. destruct rest'; reflexivity. }
      rewrite strip_trailing_slash_app by reflexivity.
      rewrite strip_trailing_slash_cons, IH.
      rewrite Hq. reflexivity.
Qed.

Lemma contains_app (c : ascii) (a b : string) :
  JS.contains c (a ++ b) = orb (JS.contains c a) (JS.contains c b).
Proof.
  induction a as [|d a IH]; simpl; [reflexivity|].
  now rewrite IH, orb_assoc.
Qed.

(** Every segment read from a path is clean. *)
Lemma segments_from_clean (current s : string) :
  JS.contains "/" current = false ->
  Forall clean (segments_from current s).
Proof.
  revert current. induction s as [|c rest IH]; intros current Hcur; simpl.
  - destruct (JS.truthy current) eqn:Ht; constructor; [now split|constructor].
  - destruct (Ascii.eqb c "/") eqn:Hc.
    + apply Forall_app. split; [|now apply IH].
      destruct (JS.truthy current) eqn:Ht; constructor;
        [now split|constructor].
    + apply IH. rewrite contains_app. simpl. now rewrite Hcur, Hc.
Qed.

Lemma segments_clean (p : string) : Forall clean (segments p).
Proof. now apply segments_from_clean. Qed.

Lemma path_setPath (v : string) (st : State) : path (setPath v st) = v.
Proof. reflexivity. Qed.

Lemma breadcrumbs_segments (st : State) :
  breadcrumbs st = segments (path st).
Proof.
  unfold breadcrumbs. rewrite filter_split_segments.
  destruct (path st); reflexivity.
Qed.

Lemma Forall_firstn {A : Type} (P : A -> Prop) (n : nat) (l : list A) :
  Forall P l -> Forall P (firstn n l).
Proof.
  intros H. revert n. induction H; intros [|n]; simpl; constructor; auto.
Qed.

Lemma Forall_removelast {A : Type} (P : A -> Prop) (l : list A) :
  Forall P l -> Forall P (removelast l).
Proof.
  induction 1 as [|a l Ha Hl IH]; simpl; [constructor|].
  destruct l; [constructor|]. constructor; assumption.
Qed.

(** Navigating to the join of clean segments leads there. *)
Lemma navigateTo_join (segs : list string) (st : State) :
  Forall clean segs ->
  path (navigateTo (JS.join "/" segs) st) = JS.join "/" segs /\
  breadcrumbs (navigateTo (JS.join "/" segs) st) = segs.
Proof.
  intros H. destruct (join_clean_stripped segs H) as [Hlead Htrail].
  assert (Hpath : path (navigateTo (JS.join "/" segs) st) = JS.join "/" segs).
  { unfold navigateTo. simpl. now rewrite Hlead, Htrail. }
  split; [exact Hpath|].
  rewrite breadcrumbs_segments, Hpath. now apply segments_of_join.
Qed.

(** X9. Clicking the [i]-th breadcrumb leads to the path made of the first
    [i + 1] segments of the current path, and leaves exactly those
    breadcrumbs. *)
Theorem clickBreadcrumb_keeps_prefix (i : nat) (st : State) :
  (i < List.length (breadcrumbs st))%nat ->
  path (clickBreadcrumb i st) =
    JS.join "/" (firstn (i + 1) (breadcrumbs st)) /\
  breadcrumbs (clickBreadcrumb i st) = firstn (i + 1) (breadcrumbs st) /\
  List.length (breadcrumbs (clickBreadcrumb i st)) = (i + 1)%nat.
Proof.
  intros Hi. unfold clickBreadcrumb.
  assert (Hclean : Forall clean (firstn (i + 1) (breadcrumbs st))).
  { apply Forall_firstn. rewrite breadcrumbs_segments. apply segments_clean. }
  destruct (navigateTo_join _ st Hclean) as [Hpath Hcrumbs].
  repeat split; [exact Hpath|exact Hcrumbs|].
  rewrite Hcrumbs, length_firstn. lia.
Qed.

(** X10. Entering a folder and going up again is a round trip: from a path
    made of clean segments, navigating to the key of a sub-folder, written
    with or without its final slash, leads to the path extended by the
    folder's name, and [goUp] then leads back. *)
Theorem navigateTo_then_goUp (segs : list string) (folder : string) (st : State) :
  Forall clean segs -> clean folder ->
  path st = JS.join "/" segs ->
  let inside := JS.join "/" (segs ++ [folder])%list in
  path (navigateTo (inside ++ "/") st) = inside /\
  path (navigateTo inside st) = inside /\
  breadcrumbs (navigateTo (inside ++ "/") st) = (segs ++ [folder])%list /\
  path (goUp (navigateTo (inside ++ "/") st)) = path st.
Proof.
  intros Hsegs Hfolder Hpath inside.
  assert (Hall : Forall clean (segs ++ [folder])%list).
  { apply Forall_app. split; [exact Hsegs|now constructor]. }
  destruct (join_clean_stripped _ Hall) as [Hlead Htrail].
  destruct (navigateTo_join _ st Hall) as [Hin Hcrumbs].
  assert (Hne : exists c tail, inside = String c tail /\ Ascii.eqb c "/" = false).
  { unfold inside. destruct segs as [|p rest].
    - destruct Hfolder as [Ht Hs]. destruct folder as [|c f]; [discriminate|].
      simpl in Hs. apply orb_false_iff in Hs. exists c, f. now split.
    - inversion Hsegs as [|? ? [Ht Hs] _]; subst.
      destruct p as [|c p]; [discriminate|].
      simpl in Hs. apply orb_false_iff in Hs.
      destruct (rest ++ [folder])%list eqn:E;
        [destruct rest; discriminate|].
      simpl. rewrite E. eexists c, _. split; [reflexivity|apply Hs]. }
  assert (Hslash : path (navigateTo (inside ++ "/") st) = inside).
  { unfold navigateTo. simpl path.
    destruct Hne as (c & tail & Heq & Hc). rewrite Heq.
    change (String c tail ++ "/") with (String c (tail ++ "/")).
    rewrite strip_leading_slash_cons, Hc.
    change (String c (tail ++ "/")) with (String c tail ++ "/").
    apply strip_trailing_slash_of_slash. }
  repeat split.
  - exact Hslash.
  - exact Hin.
  - rewrite breadcrumbs_segments, Hslash. now apply segments_of_join.
  - rewrite goUp_path, path_setPath, Hslash.
    unfold inside. rewrite (segments_of_join _ Hall), removelast_last.
    now rewrite Hpath.
Qed.

(** Each [goUp] removes the last breadcrumb. *)
Lemma breadcrumbs_goUp (st : State) :
  breadcrumbs (goUp st) = removelast (breadcrumbs st).
Proof.
  rewrite !breadcrumbs_segments, goUp_path, path_setPath.
  apply segments_of_join, Forall_removelast, segments_clean.
Qed.

Lemma removelast_length {A : Type} (l : list A) :
  List.length (removelast l) = (List.length l - 1)%nat.
Proof.
  induction l as [|a [|b l] IH]; try reflexivity.
  change (removelast (a :: b :: l)) with (a :: removelast (b :: l)).
  simpl List.length in *. rewrite IH. lia.
Qed.

(** X11. Whatever the path, each [goUp] takes exactly one breadcrumb away
    (none at the root), and at least one [goUp] and as many as there are
    breadcrumbs lead to the empty path. *)
Theorem goUp_reaches_root (n : nat) (st : State) :
  List.length (breadcrumbs (Nat.iter n goUp st)) =
    (List.length (breadcrumbs st) - n)%nat /\
  ((1 <= n)%nat -> (List.length (breadcrumbs st) <= n)%nat ->
   path (Nat.iter n goUp st) = EmptyString).
Proof.
  assert (Hlen : forall k,
             List.length (breadcrumbs (Nat.iter k goUp st)) =
             (List.length (breadcrumbs st) - k)%nat).
  { induction k as [|k IH]; simpl; [lia|].
    rewrite breadcrumbs_goUp, removelast_length, IH. lia. }
  split; [apply Hlen|].
  intros Hpos Hn. destruct n as [|k]; [lia|].
  simpl Nat.iter. rewrite goUp_path, path_setPath.
  rewrite <- breadcrumbs_segments.
  specialize (Hlen k).
  destruct (breadcrumbs (Nat.iter k goUp st)) as [|a [|b l]];
    [reflexivity|reflexivity|].
  simpl in Hlen. lia.
Qed.

End Paths.

Lemma clickBreadcrumb_keeps_prefix_witness :
  Browser.breadcrumbs (Navigation.browsing "/a//b/c/" None) = ["a"; "b"; "c"] /\
  Browser.path
    (Navigation.clickBreadcrumb 1 (Navigation.browsing "/a//b/c/" None)) =
  "a/b".
Proof.
  split; [reflexivity|].
  apply (clickBreadcrumb_keeps_prefix 1 (Navigation.browsing "/a//b/c/" None)).
  simpl. lia.
Defined.

Lemma navigateTo_then_goUp_witness :
  Browser.path
    (Browser.goUp
       (Browser.navigateTo "videos/2024/" (Navigation.browsing "videos" None))) =
  "videos".
Proof.
  apply (navigateTo_then_goUp ["videos"] "2024"
           (Navigation.browsing "videos" None)).
  - repeat constructor.
  - repeat constructor.
  - reflexivity.
Defined.

Lemma goUp_reaches_root_witness :
  Browser.path
    (Nat.iter 3 Browser.goUp (Navigation.browsing "a/b/c" None)) = "".
Proof.
  apply (goUp_reaches_root 3 (Navigation.browsing "a/b/c" None)).
  - lia.
  - simpl. lia.
Defined.

(* ================================================================= *)
(** * Previews *)

Section Previews.

Import Http.
Import Browser.
Import Navigation.

Variable toLowerCase : string -> string.

Open Scope Z_scope.

Lemma findIndex_range {A : Type} (pred : A -> bool) (arr : list A) :
  -1 <= findIndex pred arr < Z.of_nat (List.length arr).
Proof.
  induction arr as [|x rest IH]; simpl List.length; simpl findIndex; [lia|].
  destruct (pred x); [lia|].
  destruct (findIndex pred rest); lia.
Qed.

Lemma at_index_in_range {A : Type} (arr : list A) (i : Z) :
  0 <= i < Z.of_nat (List.length arr) ->
  exists x, at_index arr i = Some x /\ In x arr.
Proof.
  intros Hi. unfold at_index.
  destruct (i <? 0) eqn:Hneg; [apply Z.ltb_lt in Hneg; lia|].
  destruct (nth_error arr (Z.to_nat i)) as [x|] eqn:Hx.
  - exists x. split; [reflexivity|]. eapply nth_error_In; eauto.
  - apply nth_error_None in Hx. lia.
Qed.

(** With distinct keys, an element is found at its own index. *)
Lemma findIndex_of_element (l : list S3Object) (i : nat) (f : S3Object) :
  NoDup (map key l) ->
  nth_error l i = Some f ->
  findIndex (fun g => String.eqb (key g) (key f)) l = Z.of_nat i.
Proof.
  revert i. induction l as [|x rest IH]; intros i Hnodup Hnth.
  - destruct i; discriminate.
  - simpl in Hnodup. inversion Hnodup as [|? ? Hnotin Hrest]; subst.
    destruct i as [|i]; simpl in Hnth.
    + injection Hnth as ->. simpl. now rewrite String.eqb_refl.
    + simpl findIndex.
      destruct (String.eqb (key x) (key f)) eqn:Heq.
      * apply String.eqb_eq in Heq. exfalso. apply Hnotin. rewrite Heq.
        apply in_map. eapply nth_error_In; eauto.
      * rewrite (IH i Hrest Hnth). destruct i; simpl; lia.
Qed.

Lemma previewableFiles_setPreviewFile (v : option S3Object) (s : State) :
  previewableFiles toLowerCase (setPreviewFile v s) =
  previewableFiles toLowerCase s.
Proof. reflexivity. Qed.

Lemma previewableFiles_previewable (s : State) (f : S3Object) :
  In f (previewableFiles toLowerCase s) ->
  In f (objects s) /\ isDirectory f = false /\
  FileUtils.isPreviewable toLowerCase (name f) = true.
Proof.
  unfold previewableFiles. rewrite filter_In.
  intros [Hin Hf]. apply andb_true_iff in Hf. destruct Hf as [Hdir Hprev].
  apply negb_true_iff in Hdir. auto.
Qed.

Lemma preview_step_previewable (s : State) (e : PreviewEvent) :
  previewable_shown toLowerCase s ->
  previewable_shown toLowerCase (preview_step toLowerCase s e).
Proof.
  intros Hs f. destruct e as [obj| | | |listing]; simpl.
  - unfold handlePreview.
    destruct (FileUtils.isPreviewable toLowerCase (name obj)) eqn:Hobj;
      [|apply Hs].
    simpl. intros Hf. injection Hf as <-. exact Hobj.
  - unfold handlePrevPreview.
    destruct (0 <? currentPreviewIndex toLowerCase s); [|apply Hs].
    simpl. unfold at_index.
    destruct (currentPreviewIndex toLowerCase s - 1 <? 0); [discriminate|].
    intros Hf. apply nth_error_In in Hf.
    now apply previewableFiles_previewable in Hf.
  - unfold handleNextPreview.
    destruct (currentPreviewIndex toLowerCase s <? _); [|apply Hs].
    simpl. unfold at_index.
    destruct (currentPreviewIndex toLowerCase s + 1 <? 0); [discriminate|].
    intros Hf. apply nth_error_In in Hf.
    now apply previewableFiles_previewable in Hf.
  - discriminate.
  - apply Hs.
Qed.

(** X12. From a browser whose modal is closed, whatever files are opened,
    whichever arrows are used and however the listing changes, the file in
    the modal is always one that can be previewed: the modal the browser
    renders holds at most one widget and never the "cannot preview"
    fallback. *)
Theorem browser_never_shows_fallback
  (storage : StorageInfo) (events : list PreviewEvent) (s0 : State) :
  previewFile s0 = None ->
  let s := fold_left (preview_step toLowerCase) events s0 in
  (forall f, previewFile s = Some f ->
             FileUtils.isPreviewable toLowerCase (name f) = true) /\
  existsb Preview.is_CannotPreview
    (rendered_preview toLowerCase storage s) = false /\
  (List.length (rendered_preview toLowerCase storage s) <= 1)%nat.
Proof.
  intros Hclosed s.
  assert (Hinv : previewable_shown toLowerCase s).
  { subst s. assert (H0 : previewable_shown toLowerCase s0).
    { intros f Hf. congruence. }
    clear Hclosed. revert s0 H0.
    induction events as [|e rest IH]; intros s0 H0; [exact H0|].
    simpl. apply IH. now apply preview_step_previewable. }
  split; [exact Hinv|].
  unfold rendered_preview.
  destruct (previewFile s) as [f|] eqn:Hf; [|split; [reflexivity|simpl; lia]].
  specialize (Hinv f Hf).
  unfold FileUtils.isPreviewable in Hinv. cbv zeta in Hinv.
  unfold Preview.preview_content. cbv zeta.
  destruct (FileUtils.getFileType toLowerCase (name f)); simpl in *;
    try discriminate; split; try reflexivity; lia.
Qed.

(** X13. The arrows never blank the modal.  When [hasNext] holds,
    [handleNextPreview] shows a file of [previewableFiles]; when it does
    not, nothing changes; and likewise for [hasPrev] and
    [handlePrevPreview]. *)
Theorem preview_arrows_stay_in_list (s : State) :
  (hasNext toLowerCase s = true ->
   exists f, previewFile (handleNextPreview toLowerCase s) = Some f /\
             In f (previewableFiles toLowerCase s)) /\
  (hasNext toLowerCase s = false -> handleNextPreview toLowerCase s = s) /\
  (hasPrev toLowerCase s = true ->
   exists f, previewFile (handlePrevPreview toLowerCase s) = Some f /\
             In f (previewableFiles toLowerCase s)) /\
  (hasPrev toLowerCase s = false -> handlePrevPreview toLowerCase s = s).
Proof.
  unfold hasNext, hasPrev, handleNextPreview, handlePrevPreview.
  assert (Hrange : -1 <= currentPreviewIndex toLowerCase s
                   < Z.of_nat (List.length (previewableFiles toLowerCase s))
                   \/ currentPreviewIndex toLowerCase s = -1).
  { unfold currentPreviewIndex. destruct (previewFile s); [left|now right].
    apply findIndex_range. }
  repeat split.
  - intros H. rewrite H. simpl previewFile. apply Z.ltb_lt in H.
    apply at_index_in_range. lia.
  - intros H. now rewrite H.
  - intros H. rewrite H. simpl previewFile. apply Z.ltb_lt in H.
    apply at_index_in_range. lia.
  - intros H. now rewrite H.
Qed.

(** X14. In a listing whose previewable files have distinct keys, [Next]
    moves the modal from the file at index [i] to the file at index
    [i + 1], and [Prev] then moves it back to index [i]. *)
Theorem preview_next_then_prev (s : State) :
  NoDup (map key (previewableFiles toLowerCase s)) ->
  0 <= currentPreviewIndex toLowerCase s ->
  hasNext toLowerCase s = true ->
  let i := currentPreviewIndex toLowerCase s in
  let next := handleNextPreview toLowerCase s in
  currentPreviewIndex toLowerCase next = i + 1 /\
  previewFile next = at_index (previewableFiles toLowerCase s) (i + 1) /\
  hasPrev toLowerCase next = true /\
  currentPreviewIndex toLowerCase (handlePrevPreview toLowerCase next) = i /\
  previewFile (handlePrevPreview toLowerCase next) =
    at_index (previewableFiles toLowerCase s) i.
Proof.
  intros Hnodup Hi Hnext i next.
  assert (Hmove : forall j st,
             previewableFiles toLowerCase st = previewableFiles toLowerCase s ->
             0 <= j < Z.of_nat (List.length (previewableFiles toLowerCase s)) ->
             previewFile st = at_index (previewableFiles toLowerCase s) j ->
             currentPreviewIndex toLowerCase st = j).
  { intros j st Hfiles Hj Hfile. unfold currentPreviewIndex.
    rewrite Hfile, Hfiles. unfold at_index.
    destruct (j <? 0) eqn:Hneg; [apply Z.ltb_lt in Hneg; lia|].
    destruct (nth_error (previewableFiles toLowerCase s) (Z.to_nat j))
      as [f|] eqn:Hf; [|apply nth_error_None in Hf; lia].
    rewrite (findIndex_of_element _ _ _ Hnodup Hf). lia. }
  unfold hasNext in Hnext. fold i in Hnext.
  assert (Hlt : i < Z.of_nat (List.length (previewableFiles toLowerCase s)) - 1)
    by now apply Z.ltb_lt.
  assert (Hnextfile : previewFile next =
                      at_index (previewableFiles toLowerCase s) (i + 1)).
  { unfold next, handleNextPreview. fold i. now rewrite Hnext. }
  assert (Hnextfiles : previewableFiles toLowerCase next =
                       previewableFiles toLowerCase s).
  { unfold next, handleNextPreview. fold i. now rewrite Hnext. }
  assert (Hnextidx : currentPreviewIndex toLowerCase next = i + 1).
  { apply Hmove; [exact Hnextfiles|lia|exact Hnextfile]. }
  assert (Hprev : (0 <? currentPreviewIndex toLowerCase next) = true).
  { rewrite Hnextidx. apply Z.ltb_lt. lia. }
  assert (Hprevfile : previewFile (handlePrevPreview toLowerCase next) =
                      at_index (previewableFiles toLowerCase s) i).
  { unfold handlePrevPreview. rewrite Hprev. simpl previewFile.
    rewrite Hnextfiles, Hnextidx. f_equal. lia. }
  repeat split; try assumption.
  apply Hmove; [|lia|exact Hprevfile].
  unfold handlePrevPreview. rewrite Hprev.
  rewrite previewableFiles_setPreviewFile. exact Hnextfiles.
Qed.

(** X15. When the file in the modal is no longer among the previewable
    files of the listing, [Prev] does nothing and [Next] shows the first
    previewable file. *)
Theorem preview_of_vanished_file (s : State) (first : S3Object)
  (others : list S3Object) :
  currentPreviewIndex toLowerCase s = -1 ->
  previewableFiles toLowerCase s = first :: others ->
  hasPrev toLowerCase s = false /\
  handlePrevPreview toLowerCase s = s /\
  hasNext toLowerCase s = true /\
  previewFile (handleNextPreview toLowerCase s) = Some first.
Proof.
  intros Hidx Hfiles.
  unfold hasPrev, hasNext, handlePrevPreview, handleNextPreview.
  rewrite Hidx, Hfiles. simpl List.length.
  assert (Hlt : (-1 <? Z.of_nat (S (List.length others)) - 1) = true)
    by (apply Z.ltb_lt; lia).
  rewrite Hlt. repeat split.
Qed.

End Previews.

Lemma browser_never_shows_fallback_witness :
  existsb Preview.is_CannotPreview
    (Navigation.rendered_preview JS.ascii_toLowerCase Browser.demo_storage
       (fold_left (Navigation.preview_step JS.ascii_toLowerCase)
          [ Navigation.Open
              {| Http.key := "b.zip"; Http.name := "b.zip"; Http.size := 20;
                 Http.lastModified := ""; Http.isDirectory := false |};
            Navigation.Next; Navigation.Next; Navigation.Reload [];
            Navigation.Prev ]
          (Navigation.browsing "" None))) = false.
Proof.
  apply (browser_never_shows_fallback JS.ascii_toLowerCase
           Browser.demo_storage
           [ Navigation.Open
               {| Http.key := "b.zip"; Http.name := "b.zip"; Http.size := 20;
                  Http.lastModified := ""; Http.isDirectory := false |};
             Navigation.Next; Navigation.Next; Navigation.Reload [];
             Navigation.Prev ]
           (Navigation.browsing "" None)).
  reflexivity.
Defined.

Lemma preview_arrows_stay_in_list_witness :
  (exists f,
      Browser.previewFile
        (Navigation.handleNextPreview JS.ascii_toLowerCase
           (Navigation.browsing "" (nth_error Navigation.listing 1))) = Some f /\
      In f (Navigation.previewableFiles JS.ascii_toLowerCase
              (Navigation.browsing "" (nth_error Navigation.listing 1)))) /\
  Navigation.handlePrevPreview JS.ascii_toLowerCase
    (Navigation.browsing "" (nth_error Navigation.listing 1)) =
  Navigation.browsing "" (nth_error Navigation.listing 1).
Proof.
  pose proof (preview_arrows_stay_in_list JS.ascii_toLowerCase
                (Navigation.browsing "" (nth_error Navigation.listing 1)))
    as (Hnext & _ & _ & Hprev).
  split; [apply Hnext|apply Hprev]; reflexivity.
Defined.

Lemma preview_next_then_prev_witness :
  Browser.previewFile
    (Navigation.handlePrevPreview JS.ascii_toLowerCase
       (Navigation.handleNextPreview JS.ascii_toLowerCase
          (Navigation.browsing "" (nth_error Navigation.listing 1)))) =
  nth_error Navigation.listing 1.
Proof.
  apply (preview_next_then_prev JS.ascii_toLowerCase
           (Navigation.browsing "" (nth_error Navigation.listing 1))).
  - simpl. repeat constructor; simpl; intuition discriminate.
  - apply Z.leb_le. reflexivity.
  - reflexivity.
Defined.

Lemma preview_of_vanished_file_witness :
  Browser.previewFile
    (Navigation.handleNextPreview JS.ascii_toLowerCase
       (Navigation.browsing "" (nth_error Navigation.listing 2))) =
  nth_error Navigation.listing 1.
Proof.
  apply (preview_of_vanished_file JS.ascii_toLowerCase
           (Navigation.browsing "" (nth_error Navigation.listing 2))
           _ [ {| Http.key := "c.JPG"; Http.name := "c.JPG"; Http.size := 30;
                  Http.lastModified := ""; Http.isDirectory := false |} ]).
  - reflexivity.
  - reflexivity.
Defined.

(* ================================================================= *)
(** * Sizes *)

Section Sizes.

Import Format.

Open Scope Z_scope.

Lemma unit_index_small (bytes : Z) : 0 < bytes < 1024 -> unit_index bytes = 0.
Proof.
  intros [Hpos Hlt]. unfold unit_index. change (Z.log2 k) with 10.
  assert (Hlog : 0 <= Z.log2 bytes < 10).
  { split; [apply Z.log2_nonneg|]. apply Z.log2_lt_pow2; [exact Hpos|exact Hlt]. }
  apply Z.div_small. exact Hlog.
Qed.

(** X16. A size below one kibibyte is printed as it is, in bytes. *)
Theorem formatBytes_below_one_kibibyte (bytes : Z) :
  0 < bytes < 1024 ->
  formatBytes bytes = (JS.number_to_string bytes ++ " B")%string.
Proof.
  intros Hb. unfold formatBytes.
  destruct (bytes =? 0) eqn:H0; [apply Z.eqb_eq in H0; lia|].
  destruct (bytes <? 0) eqn:Hneg; [apply Z.ltb_lt in Hneg; lia|].
  cbv zeta. rewrite (unit_index_small _ Hb).
  change (k ^ 0) with 1. change (sizes_at 0) with (Some "B"%string).
  unfold toFixed2, print_hundredths. cbv zeta.
  replace ((200 * bytes + 1) / (2 * 1)) with (100 * bytes).
  2:{ apply Z.div_unique with (r := 1); lia. }
  replace (100 * bytes / 100) with bytes.
  2:{ rewrite Z.mul_comm. symmetry. apply Z.div_mul. lia. }
  replace ((100 * bytes) mod 100) with 0.
  2:{ rewrite Z.mul_comm. symmetry. apply Z.mod_mul. lia. }
  simpl. now rewrite append_assoc.
Qed.


End Sizes.

Lemma formatBytes_below_one_kibibyte_witness :
  Format.formatBytes 1023 = "1023 B".
Proof. apply (formatBytes_below_one_kibibyte 1023). lia. Defined.


(* ================================================================= *)
(** * Media time and zoom *)

Section MediaFacts.

Import QArith.QArith_base.
Import QArith.Qround.
Import QArith.Qminmax.
Import Media.

Local Open Scope Z_scope.







(** The scales the zoom can take. *)
Lemma quarters_step (s : Q) (c : ZoomClick) :
  (exists q, 2 <= q <= 12 /\ (s == q # 4)%Q) ->
  exists q, 2 <= q <= 12 /\ (zoom_step s c == q # 4)%Q.
Proof.
  intros (q & Hq & Hs). destruct c; simpl.
  - unfold zoomIn. destruct (Z.eq_dec q 12) as [->|Hne].
    + exists 12. split; [lia|]. rewrite Hs.
      rewrite Q.min_r; unfold Qle, Qeq; simpl; lia.
    + exists (q + 1). split; [lia|]. rewrite Hs.
      rewrite Q.min_l; unfold Qle, Qeq; simpl; lia.
  - unfold zoomOut. destruct (Z.eq_dec q 2) as [->|Hne].
    + exists 2. split; [lia|]. rewrite Hs.
      rewrite Q.max_r; unfold Qle, Qeq; simpl; lia.
    + exists (q - 1). split; [lia|]. rewrite Hs.
      rewrite Q.max_l; unfold Qle, Qeq; simpl; lia.
  - exists 4. split; [lia|]. reflexivity.
Qed.

(** X19. Whatever the buttons pressed, the scale of the image is a
    multiple of 0.25 between 0.5 and 3, and the percentage shown is that
    multiple of 25, between 50 and 300. *)
Theorem zoom_stays_in_range (clicks : list ZoomClick) :
  let scale := fold_left zoom_step clicks initial_scale in
  (0.5 <= scale <= 3)%Q /\
  exists q, 2 <= q <= 12 /\ (scale == q # 4)%Q /\ percent scale = 25 * q.
Proof.
  intros scale.
  assert (Hq : exists q, 2 <= q <= 12 /\ (scale == q # 4)%Q).
  { subst scale.
    assert (H0 : exists q, 2 <= q <= 12 /\ (initial_scale == q # 4)%Q).
    { exists 4. split; [lia|reflexivity]. }
    revert H0. generalize initial_scale.
    induction clicks as [|c rest IH]; intros s Hs; [exact Hs|].
    simpl. apply IH. now apply quarters_step. }
  destruct Hq as (q & Hq & Hs).
  split.
  - rewrite Hs. unfold Qle. simpl. lia.
  - exists q. repeat split; try lia; [exact Hs|].
    unfold percent, Math_floor.
    assert (Heq : (scale * 100 + 0.5 == (200 * q + 4) # 8)%Q).
    { rewrite Hs. unfold Qeq. cbn -[Z.mul Z.add]. lia. }
    rewrite (Qfloor_comp _ _ Heq). unfold Qfloor.
    Z.div_mod_to_equations. lia.
Qed.

(** X20. Away from the two ends of the range, [zoomIn] and [zoomOut] undo
    each other; at the ends they do nothing. *)
Theorem zoom_round_trip (s : Q) :
  ((0.5 <= s)%Q -> (s <= 2.75)%Q -> (zoomOut (zoomIn s) == s)%Q) /\
  ((0.75 <= s)%Q -> (s <= 3)%Q -> (zoomIn (zoomOut s) == s)%Q) /\
  (zoomIn 3 == 3)%Q /\ (zoomOut 0.5 == 0.5)%Q.
Proof.
  repeat split; try reflexivity.
  - intros Hlow Hhigh. unfold zoomIn, zoomOut.
    assert (Hin : (Qmin (s + 0.25) 3 == s + 0.25)%Q).
    { apply Q.min_l. destruct s as [n p]. unfold Qle in *. simpl in *. lia. }
    rewrite Hin. rewrite Q.max_l.
    + destruct s as [n p]. unfold Qeq. simpl. lia.
    + destruct s as [n p]. unfold Qle in *. simpl in *. lia.
  - intros Hlow Hhigh. unfold zoomIn, zoomOut.
    assert (Hout : (Qmax (s - 0.25) 0.5 == s - 0.25)%Q).
    { apply Q.max_l. destruct s as [n p]. unfold Qle in *. simpl in *. lia. }
    rewrite Hout. rewrite Q.min_l.
    + destruct s as [n p]. unfold Qeq. simpl. lia.
    + destruct s as [n p]. unfold Qle in *. simpl in *. lia.
Qed.

End MediaFacts.


Lemma zoom_round_trip_witness :
  QArith.QArith_base.Qeq
    (Media.zoomOut (Media.zoomIn Media.initial_scale)) Media.initial_scale.
Proof.
  apply (proj1 (zoom_round_trip Media.initial_scale));
    unfold QArith.QArith_base.Qle; simpl; lia.
Defined.

(* ================================================================= *)
(** * The tables of the file utilities *)

Section TablesFacts.

Import FileUtils.
Import Tables.

Variable toLowerCase : string -> string.

Lemma own_property_In (props : list (string * string)) (key v : string) :
  own_property props key = Some v -> In (key, v) props.
Proof.
  induction props as [|[k w] rest IH]; simpl; [discriminate|].
  destruct (String.eqb k key) eqn:Hk.
  - apply String.eqb_eq in Hk. intros H. injection H as <-. left. now subst.
  - intros H. right. now apply IH.
Qed.

(** A string other than the default comes from the table. *)
Lemma specific_entry (props : list (string * string))
  (ext default value : string) :
  js_or (get_property props ext) (JsString default) = JsString value ->
  value <> default ->
  In (ext, value) props.
Proof.
  unfold js_or, get_property. intros H Hne.
  destruct (own_property props ext) as [v|] eqn:Hown.
  - simpl in H. destruct (JS.truthy v).
    + injection H as <-. now apply own_property_In.
    + injection H as <-. contradiction.
  - destruct (String.eqb ext "__proto__"); cbn [js_truthy] in H;
      [discriminate|].
    destruct (JS.includes OBJECT_PROTOTYPE_FUNCTIONS ext);
      cbn [js_truthy] in H; [discriminate|].
    injection H as <-. contradiction.
Qed.

(** X21. A file for which [getMimeType] knows a MIME type of its own is a
    file with a preview, and the MIME type fits the file type: [video/...]
    for a video, [audio/...] for audio, [image/...] for an image,
    [text/...] for text, [text/...] or [application/json] for code,
    [application/pdf] for a PDF. *)
Theorem getMimeType_fits_getFileType (filename mime : string) :
  getMimeType toLowerCase filename = JsString mime ->
  mime <> "application/octet-stream" ->
  mime_family (getFileType toLowerCase filename) mime = true /\
  isPreviewable toLowerCase filename = true.
Proof.
  unfold getMimeType, isPreviewable, getFileType. cbv zeta.
  generalize (getFileExtension toLowerCase filename) as ext.
  intros ext H Hne.
  pose proof (specific_entry _ _ _ _ H Hne) as Hin.
  simpl in Hin.
  repeat (destruct Hin as [Hin|Hin];
          [injection Hin as <- <-; split; reflexivity|]).
  contradiction.
Qed.

(** X23. [getCodeLanguage] names a language of its own only for files that
    the modal shows as text: their type is [code] or [text]. *)
Theorem getCodeLanguage_only_for_text (filename language : string) :
  getCodeLanguage toLowerCase filename = JsString language ->
  language <> "plaintext" ->
  getFileType toLowerCase filename = code \/
  getFileType toLowerCase filename = text.
Proof.
  unfold getCodeLanguage, getFileType. cbv zeta.
  generalize (getFileExtension toLowerCase filename) as ext.
  intros ext H Hne.
  pose proof (specific_entry _ _ _ _ H Hne) as Hin.
  simpl in Hin.
  repeat (destruct Hin as [Hin|Hin];
          [injection Hin as <- <-; (now left) || (now right)|]).
  contradiction.
Qed.

(** The inherited names are keys of neither table. *)
Lemma inherited_not_own (ext : string) :
  In ext INHERITED ->
  own_property mimeTypes ext = None /\ own_property languages ext = None.
Proof.
  unfold INHERITED, OBJECT_PROTOTYPE_FUNCTIONS. simpl.
  intros H.
  repeat (destruct H as [<-|H]; [split; reflexivity|]).
  contradiction.
Qed.

Lemma lookup_is_text (props : list (string * string)) (ext default : string) :
  JS.truthy default = true ->
  (is_text (js_or (get_property props ext) (JsString default)) = true <->
   ~ In ext INHERITED \/ exists v, own_property props ext = Some v).
Proof.
  intros Hdefault.
  unfold js_or, get_property.
  destruct (own_property props ext) as [v|] eqn:Hown.
  - split; [intros _; right; eauto|]. intros _. cbn [js_truthy].
    destruct (JS.truthy v) eqn:Hv; cbn [is_text]; [exact Hv|exact Hdefault].
  - destruct (String.eqb ext "__proto__") eqn:Hproto.
    + apply String.eqb_eq in Hproto. cbn [js_truthy is_text].
      split; [discriminate|].
      intros [Hnot|[v Hv]]; [|discriminate].
      exfalso. apply Hnot. left. now symmetry.
    + destruct (JS.includes OBJECT_PROTOTYPE_FUNCTIONS ext) eqn:Hfun;
        cbn [js_truthy is_text].
      * split; [discriminate|].
        intros [Hnot|[v Hv]]; [|discriminate].
        exfalso. apply Hnot. right. now apply includes_In.
      * split; [|intros _; exact Hdefault].
        intros _. left. intros [Heq|Hin].
        -- subst ext. discriminate.
        -- apply includes_In in Hin. congruence.
Qed.

(** X22. [getMimeType] and [getCodeLanguage] return a non-empty string for
    every file but those whose extension is the name of a property that
    object literals inherit ([constructor], [__proto__], ...): for these
    the value returned is the inherited one, which is not a string. *)
Theorem lookups_return_text_unless_inherited (filename : string) :
  let ext := getFileExtension toLowerCase filename in
  (is_text (getMimeType toLowerCase filename) = true <-> ~ In ext INHERITED) /\
  (is_text (getCodeLanguage toLowerCase filename) = true <->
   ~ In ext INHERITED) /\
  (In ext INHERITED ->
   getMimeType toLowerCase filename = getCodeLanguage toLowerCase filename /\
   getMimeType toLowerCase filename =
     (if String.eqb ext "__proto__" then JsObjectPrototype
      else JsBuiltinFunction ext)).
Proof.
  intros ext. unfold getMimeType, getCodeLanguage. cbv zeta. fold ext.
  assert (Hmime : is_text (js_or (get_property mimeTypes ext)
                             (JsString "application/octet-stream")) = true <->
                  ~ In ext INHERITED).
  { rewrite lookup_is_text by reflexivity.
    split; [|now left]. intros [H|[v Hv]]; [exact H|].
    intros Hin. apply inherited_not_own in Hin. destruct Hin. congruence. }
  assert (Hlang : is_text (js_or (get_property languages ext)
                             (JsString "plaintext")) = true <->
                  ~ In ext INHERITED).
  { rewrite lookup_is_text by reflexivity.
    split; [|now left]. intros [H|[v Hv]]; [exact H|].
    intros Hin. apply inherited_not_own in Hin. destruct Hin. congruence. }
  split; [exact Hmime|]. split; [exact Hlang|].
  intros Hin. destruct (inherited_not_own _ Hin) as [Hm Hl].
  unfold js_or, get_property. rewrite Hm, Hl.
  destruct (String.eqb ext "__proto__") eqn:Hproto; [split; reflexivity|].
  destruct Hin as [Heq|Hin].
  - subst ext. rewrite <- Heq in Hproto. discriminate.
  - apply includes_In in Hin. rewrite Hin. split; reflexivity.
Qed.

End TablesFacts.

Lemma getMimeType_fits_getFileType_witness :
  Tables.mime_family
    (FileUtils.getFileType JS.ascii_toLowerCase "Trailer.OGG") "video/ogg" = true.
Proof.
  apply (getMimeType_fits_getFileType JS.ascii_toLowerCase
           "Trailer.OGG" "video/ogg").
  - reflexivity.
  - discriminate.
Defined.

Lemma getCodeLanguage_only_for_text_witness :
  FileUtils.getFileType JS.ascii_toLowerCase "README.md" = FileUtils.code \/
  FileUtils.getFileType JS.ascii_toLowerCase "README.md" = FileUtils.text.
Proof.
  apply (getCodeLanguage_only_for_text JS.ascii_toLowerCase
           "README.md" "markdown").
  - reflexivity.
  - discriminate.
Defined.

Lemma lookups_return_text_unless_inherited_witness :
  FileUtils.getMimeType JS.ascii_toLowerCase "a.constructor" =
  FileUtils.JsBuiltinFunction "constructor".
Proof.
  apply (proj2 (proj2 (lookups_return_text_unless_inherited
                         JS.ascii_toLowerCase "a.constructor"))).
  simpl. auto.
Defined.

(* ================================================================= *)
(** * Theme and announcement *)

Section AppearanceFacts.

Import Appearance.

Lemma getItem_setItem (key value : string) (store : WebStorage) :
  getItem (setItem key value store) key = Some value.
Proof. unfold getItem, setItem. now rewrite String.eqb_refl. Qed.

(** X24. The theme chosen with [toggleTheme] survives a reload: the page
    that loads next in this browser has the same [isDark], and the root
    element carries the class [dark] accordingly, whatever the document
    had. *)
Theorem theme_survives_reload
  (dark_in_html : bool) (siteAnnouncement : string) (p : Page) :
  let chosen := toggleTheme p in
  let next := reload dark_in_html siteAnnouncement chosen in
  isDark chosen = negb (isDark p) /\
  isDark next = isDark chosen /\
  dark_class next = isDark chosen /\
  dark_class chosen = isDark chosen.
Proof.
  unfold reload, mount_effect, toggleTheme, loaded. cbv zeta.
  cbn [localStorage sessionStorage isDark dark_class showAnnouncement].
  rewrite getItem_setItem.
  destruct (isDark p); simpl;
    destruct (JS.truthy siteAnnouncement); simpl;
    try match goal with
        | |- context [not_shown ?flag] => destruct (not_shown flag)
        end;
    repeat split.
Qed.

(** X25. An announcement is shown once per session: the load that finds
    no flag in the session storage shows it and sets the flag, and every
    later load in that session shows nothing.  Without announcement text
    nothing is shown and no flag is set. *)
Theorem announcement_once_per_session
  (dark1 dark2 : bool) (siteAnnouncement : string) (p : Page) :
  let first := mount_effect siteAnnouncement p in
  let second := reload dark2 siteAnnouncement first in
  (siteAnnouncement <> EmptyString ->
   (getItem (sessionStorage p) "announcement_shown" = None ->
    showAnnouncement first = true) /\
   (exists flag,
       getItem (sessionStorage first) "announcement_shown" = Some flag /\
       flag <> EmptyString) /\
   showAnnouncement second = false /\
   announcement_rendered siteAnnouncement second = false) /\
  (siteAnnouncement = EmptyString ->
   showAnnouncement first = showAnnouncement p /\
   announcement_rendered siteAnnouncement first = false /\
   forall key, getItem (sessionStorage first) key =
               getItem (sessionStorage p) key).
Proof.
  cbv zeta. split.
  - intros Hann. apply truthy_true in Hann.
    assert (Hflag : exists flag,
               getItem (sessionStorage (mount_effect siteAnnouncement p))
                 "announcement_shown" = Some flag /\ flag <> EmptyString).
    { unfold mount_effect. cbv zeta. rewrite Hann.
      destruct (is_light _);
        cbn [localStorage sessionStorage isDark dark_class showAnnouncement];
        destruct (getItem (sessionStorage p) "announcement_shown")
          as [flag|] eqn:Hget; cbn [not_shown];
        try (destruct (JS.truthy flag) eqn:Hflag; cbn [negb]);
        cbn [sessionStorage];
        try (rewrite getItem_setItem; eexists; split;
             [reflexivity|discriminate]);
        exists flag; (split; [exact Hget|now apply truthy_true]). }
    split; [|split; [exact Hflag|]].
    + intros Hnone. unfold mount_effect. cbv zeta. rewrite Hann.
      destruct (is_light _);
        cbn [localStorage sessionStorage isDark dark_class showAnnouncement];
        rewrite Hnone; reflexivity.
    + destruct Hflag as (flag & Hget & Hne). apply truthy_true in Hne.
      assert (Hsecond : showAnnouncement
                          (reload dark2 siteAnnouncement
                             (mount_effect siteAnnouncement p)) = false).
      { unfold reload. unfold mount_effect at 1. cbv zeta. rewrite Hann.
        unfold loaded.
        cbn [localStorage sessionStorage isDark dark_class showAnnouncement].
        destruct (is_light _);
          cbn [localStorage sessionStorage isDark dark_class showAnnouncement];
          rewrite Hget; cbn [not_shown]; rewrite Hne; reflexivity. }
      split; [exact Hsecond|].
      unfold announcement_rendered. now rewrite Hsecond.
  - intros ->. unfold mount_effect, announcement_rendered. cbv zeta.
    cbn [JS.truthy].
    destruct (is_light _);
      cbn [localStorage sessionStorage isDark dark_class showAnnouncement];
      repeat split; apply andb_false_r.
Qed.

End AppearanceFacts.

(* ================================================================= *)
(** * The loader, when a call fails *)

Section LoaderFailures.

Import Loader.

Variables Request Db : Type.
Variable initDatabase : Async Db unit.
Variable requireAuth : Request -> Async Db AuthResult.
Variable getAllStorages : Async Db (list Storage).
Variable getPublicStorages : Async Db (list Storage).

(** X26. With a database bound, the loader is fulfilled exactly when the
    three calls it awaits are; the first of them that is rejected rejects
    the loader for the same reason, and the loader then returns no data.
    The title it returns is never empty. *)
Theorem loader_rejects_with_its_calls (request : Request) (env : Env Db)
  (db : Db) :
  DB env = Some db ->
  let run := snd (loader Request Db initDatabase requireAuth
                    getAllStorages getPublicStorages request env) in
  (forall reason db1,
      initDatabase db = Rejected reason db1 ->
      run = Rejected reason (Some db1)) /\
  (forall u db1 reason db2,
      initDatabase db = Fulfilled u db1 ->
      requireAuth request db1 = Rejected reason db2 ->
      run = Rejected reason (Some db2)) /\
  (forall u db1 auth db2 reason db3,
      initDatabase db = Fulfilled u db1 ->
      requireAuth request db1 = Fulfilled auth db2 ->
      (if auth_isAdmin auth then getAllStorages else getPublicStorages) db2 =
        Rejected reason db3 ->
      run = Rejected reason (Some db3)) /\
  (forall data st,
      run = Fulfilled data st ->
      siteTitle data <> EmptyString /\
      exists u db1 auth db2 list db3,
        initDatabase db = Fulfilled u db1 /\
        requireAuth request db1 = Fulfilled auth db2 /\
        (if auth_isAdmin auth then getAllStorages else getPublicStorages) db2 =
          Fulfilled list db3 /\
        st = Some db3 /\
        storages data = map to_view list /\
        isAdmin data = auth_isAdmin auth).
Proof.
  intros Hdb run. subst run. unfold loader. rewrite Hdb. cbv zeta.
  unfold loader_with_db, await, snd, resolve.
  split; [|split; [|split]].
  - intros reason db1 ->. reflexivity.
  - intros u db1 reason db2 -> ->. reflexivity.
  - intros u db1 auth db2 reason db3 -> -> ->. reflexivity.
  - intros data st Hrun.
    destruct (initDatabase db) as [u db1|]; [|discriminate].
    destruct (requireAuth request db1) as [auth db2|] eqn:Hauth; [|discriminate].
    destruct ((if auth_isAdmin auth then getAllStorages else getPublicStorages)
                db2) as [list db3|] eqn:Hquery; [|discriminate].
    injection Hrun as <- <-. split.
    + simpl. apply truthy_true, or_default_truthy. reflexivity.
    + exists u, db1, auth, db2, list, db3. repeat split; assumption.
Qed.

End LoaderFailures.

Lemma announcement_once_per_session_witness :
  Appearance.showAnnouncement
    (Appearance.mount_effect "Maintenance on Friday"
       (Appearance.loaded false Appearance.empty_storage
          Appearance.empty_storage)) = true /\
  Appearance.showAnnouncement
    (Appearance.reload false "Maintenance on Friday"
       (Appearance.mount_effect "Maintenance on Friday"
          (Appearance.loaded false Appearance.empty_storage
             Appearance.empty_storage))) = false /\
  Appearance.showAnnouncement
    (Appearance.mount_effect ""
       (Appearance.loaded false Appearance.empty_storage
          Appearance.empty_storage)) = false.
Proof.
  pose proof (announcement_once_per_session false false
                "Maintenance on Friday"
                (Appearance.loaded false Appearance.empty_storage
                   Appearance.empty_storage)) as [Hshown _].
  pose proof (announcement_once_per_session false false ""
                (Appearance.loaded false Appearance.empty_storage
                   Appearance.empty_storage)) as [_ Hsilent].
  destruct Hshown as (Hfirst & _ & Hsecond & _); [discriminate|].
  destruct (Hsilent eq_refl) as (Hsame & _).
  split; [apply Hfirst; reflexivity|]. split; [exact Hsecond|exact Hsame].
Defined.

Lemma loader_rejects_with_its_calls_witness :
  snd (Loader.loader bool (Loader.D1 unit) Loader.demo_initDatabase
         Outage.failing_requireAuth Loader.demo_getAllStorages
         Loader.demo_getPublicStorages true
         (Loader.demo_env (Some (Loader.demo_db "k1" "k2")))) =
  Loader.Rejected "session store unavailable"
    (Some (Loader.demo_db "k1" "k2")).
Proof.
  apply (proj1 (proj2 (loader_rejects_with_its_calls bool (Loader.D1 unit)
                         Loader.demo_initDatabase Outage.failing_requireAuth
                         Loader.demo_getAllStorages
                         Loader.demo_getPublicStorages true
                         (Loader.demo_env (Some (Loader.demo_db "k1" "k2")))
                         (Loader.demo_db "k1" "k2") eq_refl))
           tt (Loader.demo_db "k1" "k2")); reflexivity.
Defined.

(* ================================================================= *)
(** * Extensions of ASCII names *)

Section AsciiNames.

Import FileUtils.

Variable toLowerCase : string -> string.

Hypothesis toLowerCase_ascii :
  forall s, JS.is_ascii s = true -> toLowerCase s = JS.ascii_toLowerCase s.

Lemma is_ascii_app (a b : string) :
  JS.is_ascii (a ++ b) = andb (JS.is_ascii a) (JS.is_ascii b).
Proof.
  induction a as [|c a IH]; simpl; [reflexivity|].
  now rewrite IH, andb_assoc.
Qed.

Lemma ascii_toLowerCase_app (a b : string) :
  JS.ascii_toLowerCase (a ++ b) =
  JS.ascii_toLowerCase a ++ JS.ascii_toLowerCase b.
Proof. induction a as [|c a IH]; simpl; [reflexivity|now rewrite IH]. Qed.

(** What follows the last dot of [a.b], when [b] has no dot, is [b]. *)
Lemma after_last_dot_app (a b : string) :
  JS.contains "." b = false ->
  after_last_dot (a ++ String "." b) = Some b.
Proof.
  intros Hb. induction a as [|c a IH]; simpl.
  - apply after_last_dot_None in Hb. rewrite Hb. reflexivity.
  - rewrite IH. reflexivity.
Qed.

(** X27. Only what follows the last dot counts, in lower case: an ASCII
    name [stem.ext] in which [ext] has no dot has the extension [ext]
    lowercased, whatever the stem, be it empty (a name like [.env] is all
    extension) or itself dotted ([a.tar.gz]); two such names with the same
    [ext] up to case are therefore of the same type. *)
Theorem getFileExtension_of_ascii_name (stem ext : string) :
  JS.is_ascii stem = true -> JS.is_ascii ext = true ->
  JS.contains "." ext = false ->
  getFileExtension toLowerCase (stem ++ "." ++ ext) =
    JS.ascii_toLowerCase ext /\
  forall stem' ext',
    JS.is_ascii stem' = true -> JS.is_ascii ext' = true ->
    JS.contains "." ext' = false ->
    JS.ascii_toLowerCase ext' = JS.ascii_toLowerCase ext ->
    getFileType toLowerCase (stem' ++ "." ++ ext') =
    getFileType toLowerCase (stem ++ "." ++ ext).
Proof.
  assert (Hext : forall a b,
             JS.is_ascii a = true -> JS.is_ascii b = true ->
             JS.contains "." b = false ->
             getFileExtension toLowerCase (a ++ "." ++ b) =
             JS.ascii_toLowerCase b).
  { intros a b Ha Hb Hdot.
    rewrite getFileExtension_after_last_dot.
    rewrite toLowerCase_ascii.
    2:{ rewrite is_ascii_app, Ha. simpl. exact Hb. }
    rewrite ascii_toLowerCase_app.
    change (JS.ascii_toLowerCase ("." ++ b))
      with (String "." (JS.ascii_toLowerCase b)).
    rewrite after_last_dot_app; [reflexivity|].
    now rewrite ascii_toLowerCase_dots. }
  intros Hstem Hascii Hdot. split; [now apply Hext|].
  intros stem' ext' Hstem' Hascii' Hdot' Hsame.
  unfold getFileType.
  rewrite (Hext stem ext), (Hext stem' ext'), Hsame by assumption.
  reflexivity.
Qed.

End AsciiNames.

Lemma getFileExtension_of_ascii_name_witness :
  FileUtils.getFileExtension JS.ascii_toLowerCase "backup.tar.GZ" = "gz" /\
  FileUtils.getFileExtension JS.ascii_toLowerCase ".env" = "env".
Proof.
  split.
  - apply (getFileExtension_of_ascii_name JS.ascii_toLowerCase
             (fun s _ => eq_refl) "backup.tar" "GZ"); reflexivity.
  - apply (getFileExtension_of_ascii_name JS.ascii_toLowerCase
             (fun s _ => eq_refl) "" "env"); reflexivity.
Defined.

(* ================================================================= *)
(** * The text viewer *)

Section TextViewerFacts.

Import TextViewer.

(** X28. [fetchContent] always ends with the spinner off.  In a viewer
    without error a text that arrives is what is shown, and an answer that
    is not [ok] shows "Failed to fetch file" and keeps the content.  The
    error is never cleared: in a viewer that holds one, a text that
    arrives is stored but the error is still what is shown. *)
Theorem fetchContent_outcome (r : Fetched) (s : State) :
  loading (fetchContent r s) = false /\
  render (fetchContent r s) <> Spinner /\
  (forall text,
      r = Answered true (inr text) ->
      content (fetchContent r s) = text /\
      error (fetchContent r s) = error s /\
      (error s = EmptyString -> render (fetchContent r s) = ContentView text) /\
      (error s <> EmptyString ->
       render (fetchContent r s) = ErrorView (error s))) /\
  (forall text,
      r = Answered false text ->
      content (fetchContent r s) = content s /\
      render (fetchContent r s) = ErrorView "Failed to fetch file").
Proof.
  split; [destruct r as [t|[] [t|text]]; reflexivity|].
  split.
  { unfold render.
    replace (loading (fetchContent r s)) with false
      by (destruct r as [t|[] [t|text]]; reflexivity).
    destruct (JS.truthy _); discriminate. }
  split.
  - intros text ->. unfold render. simpl. repeat split.
    + intros ->. reflexivity.
    + intros Hne. apply truthy_true in Hne. now rewrite Hne.
  - intros text ->. split; reflexivity.
Qed.

End TextViewerFacts.

Lemma fetchContent_outcome_witness :
  TextViewer.render
    (TextViewer.fetchContent (TextViewer.Answered true (inr "hello"))
       TextViewer.mounted) = TextViewer.ContentView "hello" /\
  TextViewer.render
    (TextViewer.fetchContent (TextViewer.Answered true (inr "hello"))
       (TextViewer.fetchContent (TextViewer.Answered false (inr ""))
          TextViewer.mounted)) = TextViewer.ErrorView "Failed to fetch file".
Proof.
  split.
  - apply (proj1 (proj2 (proj2 (fetchContent_outcome
                                  (TextViewer.Answered true (inr "hello"))
                                  TextViewer.mounted)))
             "hello" eq_refl).
    reflexivity.
  - apply (proj1 (proj2 (proj2 (fetchContent_outcome
                                  (TextViewer.Answered true (inr "hello"))
                                  (TextViewer.fetchContent
                                     (TextViewer.Answered false (inr ""))
                                     TextViewer.mounted))))
             "hello" eq_refl).
    discriminate.
Defined.

Lemma delete_only_when_confirmed_witness :
  In {| Http.method := Http.DELETE;
        Http.url := "/api/files/7/a.png";
        Http.headers := [];
        Http.body := Http.NoBody |}
     (Client.issued JS.ascii_toLowerCase JS.ascii_trim Browser.demo_storage
        (Client.DeleteFile "a.png" true) Session.refusing
        (Browser.demo_state "") Office.admin) /\
  Sent.confirmed_deletion (Client.DeleteFile "a.png" true) = true.
Proof.
  split; [simpl; auto|].
  apply (proj1 (delete_only_when_confirmed JS.ascii_toLowerCase JS.ascii_trim
                  Browser.demo_storage (Client.DeleteFile "a.png" true)
                  Session.refusing (Browser.demo_state "") Office.admin)
           {| Http.method := Http.DELETE;
              Http.url := "/api/files/7/a.png";
              Http.headers := [];
              Http.body := Http.NoBody |}).
  - simpl. auto.
  - reflexivity.
Defined.
